(** * Temporal compression of the cache optimizer

    A shallow embedding of
    [v3/@claude-flow/cache-optimizer/src/temporal/compression.ts]
    (class [TemporalCompressor]) and the properties of its tier assignment,
    its compressor and its transition pass.

    Conventions of the embedding.
    - JavaScript numbers that hold token counts, lengths and timestamps are
      integers ([Z]); the configured ratios and the products taken with them
      are exact rationals ([Q]), so [Math.ceil] is [Qceiling].  A tier's
      [maxAge] may be [Infinity], as the repository's demo configurations
      have it.
    - Strings are [string]s of 8-bit code units; [length], [substring],
      [split], [trim] and the two regular expressions of [summarizeCode] are
      written out for them.
    - [Date.now()] is an effect: every call reads the next value of a clock
      [nat -> Z].  Code that calls it lives in the small state monad [Js],
      whose state is the number of readings taken so far.
    - [JSON.parse] belongs to the host; it is a variable of the section that
      holds the compressor.
    - The [await]s of the source are on promises that are already settled,
      so the [async] methods are read as sequential code.
    - [processTransitions] mutates the entries it is given; the embedding
      returns the list of entries after the pass next to the result record.
      The array is taken to hold distinct objects. *)

From Stdlib Require Import ZArith QArith Qround List String Ascii Bool Lia.
From Stdlib Require DecimalString.
Import ListNotations.

Set Implicit Arguments.

Local Open Scope Z_scope.

(* ------------------------------------------------------------------ *)
(** ** JavaScript strings *)

Module JsString.

Local Open Scope string_scope.

(** [\s] of a regular expression and the characters [trim] removes,
    among the 8-bit code units. *)
Definition isSpace (c : ascii) : bool :=
  let n := nat_of_ascii c in
  ((9 <=? n) && (n <=? 13) || (n =? 32) || (n =? 160))%nat.

(** [\w] of a regular expression. *)
Definition isWord (c : ascii) : bool :=
  let n := nat_of_ascii c in
  ((48 <=? n) && (n <=? 57) || (65 <=? n) && (n <=? 90)
   || (97 <=? n) && (n <=? 122) || (n =? 95))%nat.

Definition lowerChar (c : ascii) : ascii :=
  let n := nat_of_ascii c in
  if ((65 <=? n) && (n <=? 90))%nat then ascii_of_nat (n + 32) else c.

Fixpoint toLowerCase (s : string) : string :=
  match s with
  | EmptyString => EmptyString
  | String c s' => String (lowerChar c) (toLowerCase s')
  end.

Definition len (s : string) : Z := Z.of_nat (String.length s).

(** [s.startsWith(p)] *)
Definition startsWith (s p : string) : bool := String.prefix p s.

(** [s.includes(p)] *)
Fixpoint includes (s p : string) : bool :=
  match s with
  | EmptyString => String.prefix p EmptyString
  | String _ s' => String.prefix p s || includes s' p
  end.

Fixpoint take (n : nat) (s : string) : string :=
  match n, s with
  | O, _ => EmptyString
  | _, EmptyString => EmptyString
  | S n', String c s' => String c (take n' s')
  end.

Fixpoint drop (n : nat) (s : string) : string :=
  match n, s with
  | O, _ => s
  | _, EmptyString => EmptyString
  | S n', String _ s' => drop n' s'
  end.

(** An index argument of [substring]: truncated to an integer, negative
    values count as 0 (values past the end are cut by [take]/[drop]). *)
Definition index (q : Q) : nat := Z.to_nat (Qfloor q).

(** [s.substring(0, e)] *)
Definition substringTo (s : string) (e : Q) : string := take (index e) s.

(** [s.substring(b)] *)
Definition substringFrom (s : string) (b : Q) : string := drop (index b) s.

Fixpoint dropSpaces (s : string) : string :=
  match s with
  | String c s' => if isSpace c then dropSpaces s' else s
  | EmptyString => EmptyString
  end.

Fixpoint rev (s : string) : string :=
  match s with
  | EmptyString => EmptyString
  | String c s' => rev s' ++ String c EmptyString
  end.

(** [s.trim()] *)
Definition trim (s : string) : string :=
  rev (dropSpaces (rev (dropSpaces s))).

(** [s.split('\n')]: the pieces between line feeds; the current piece is
    accumulated in reverse. *)
Fixpoint splitLinesFrom (cur : string) (s : string) : list string :=
  match s with
  | EmptyString => [rev cur]
  | String c s' =>
      if (nat_of_ascii c =? 10)%nat
      then rev cur :: splitLinesFrom EmptyString s'
      else splitLinesFrom (String c cur) s'
  end.

Definition splitLines (s : string) : list string :=
  splitLinesFrom EmptyString s.

Definition isSentenceEnd (c : ascii) : bool :=
  let n := nat_of_ascii c in
  ((n =? 46) || (n =? 33) || (n =? 63))%nat.

(** [s.split(/[.!?]+/)]: a run of terminators is one separator.
    [inSep] says that the previous character was a terminator. *)
Fixpoint splitSentencesFrom (inSep : bool) (cur : string) (s : string)
  : list string :=
  match s with
  | EmptyString => [rev cur]
  | String c s' =>
      if isSentenceEnd c
      then if inSep
           then splitSentencesFrom true cur s'
           else rev cur :: splitSentencesFrom true EmptyString s'
      else splitSentencesFrom false (String c cur) s'
  end.

Definition splitSentences (s : string) : list string :=
  splitSentencesFrom false EmptyString s.

(** [l.join(sep)] *)
Definition join (sep : string) (l : list string) : string :=
  String.concat sep l.

(** [s.repeat(n)] *)
Fixpoint repeat (s : string) (n : nat) : string :=
  match n with
  | O => EmptyString
  | S n' => s ++ repeat s n'
  end.

(** A non-empty string is truthy. *)
Definition truthy (s : string) : bool :=
  match s with EmptyString => false | _ => true end.

(** *** The regular expressions of [summarizeCode] *)

Fixpoint dropWord (s : string) : string :=
  match s with
  | String c s' => if isWord c then dropWord s' else s
  | EmptyString => EmptyString
  end.

(** One or more characters of the class, then the rest. *)
Definition some (cls : ascii -> bool) (dropAll : string -> string)
           (s : string) : option string :=
  match s with
  | String c s' => if cls c then Some (dropAll s') else None
  | EmptyString => None
  end.

Definition expect (p : string) (s : string) : option string :=
  if String.prefix p s then Some (drop (String.length p) s) else None.

Definition andThen {A B} (o : option A) (f : A -> option B) : option B :=
  match o with Some a => f a | None => None end.

Definition orElse {A} (o1 o2 : option A) : option A :=
  match o1 with Some a => Some a | None => o2 end.

Definition matched {A} (o : option A) : bool :=
  match o with Some _ => true | None => false end.

(** [/^(const|let|var)\s+\w+\s*=\s*(async\s+)?\(/]: every repetition is
    followed by a character outside its class, so the greedy reading is
    the only one. *)
Definition matchesArrowFunction (s : string) : bool :=
  matched
    (andThen (orElse (expect "const" s) (orElse (expect "let" s) (expect "var" s)))
    (fun s1 => andThen (some isSpace dropSpaces s1)
    (fun s2 => andThen (some isWord dropWord s2)
    (fun s3 => andThen (expect "=" (dropSpaces s3))
    (fun s4 =>
       let s5 := dropSpaces s4 in
       orElse
         (andThen (expect "async" s5)
            (fun s6 => andThen (some isSpace dropSpaces s6) (expect "(")))
         (expect "(" s5)))))).

(** The characters up to the first [)], which is consumed: [[^)]*\)]. *)
Fixpoint throughParen (s : string) : option string :=
  match s with
  | EmptyString => None
  | String c s' => if (nat_of_ascii c =? 41)%nat then Some s' else throughParen s'
  end.

(** [/^\w+\s*\([^)]*\)\s*[:{]/] *)
Definition matchesMethodSignature (s : string) : bool :=
  matched
    (andThen (some isWord dropWord s)
    (fun s1 => andThen (expect "(" (dropSpaces s1))
    (fun s2 => andThen (throughParen s2)
    (fun s3 =>
       let s4 := dropSpaces s3 in
       orElse (expect ":" s4) (expect "{" s4))))).

End JsString.

(* ------------------------------------------------------------------ *)
(** ** Parsed JSON *)

#[local] Set Warnings "-register-all".

(** What [JSON.parse] returns.  A number carries the text [String] gives
    for it; an object carries its own properties in the order of
    [Object.keys]. *)
Inductive JsonValue : Type :=
| JNull
| JBool (b : bool)
| JNumber (text : string)
| JString (s : string)
| JArray (items : list JsonValue)
| JObject (props : list (string * JsonValue)).

Module Json.

Local Open Scope string_scope.

(** [typeof v === 'object'] *)
Definition isObject (v : JsonValue) : bool :=
  match v with
  | JNull | JArray _ | JObject _ => true
  | JBool _ | JNumber _ | JString _ => false
  end.

(** [String(v)] for the values whose [typeof] is not ['object'], and for
    [null].  Arrays and objects never reach it in [extractJsonSummary];
    their line is a placeholder. *)
Definition toString (v : JsonValue) : string :=
  match v with
  | JNull => "null"
  | JBool true => "true"
  | JBool false => "false"
  | JNumber text => text
  | JString s => s
  | JArray _ | JObject _ => "[object Object]"
  end.

Definition decimal (n : nat) : string :=
  DecimalString.NilZero.string_of_uint (Nat.to_uint n).

(** The pairs [(key, obj[key])] for [key] of [Object.keys(obj)]. *)
Definition entries (v : JsonValue) : list (string * JsonValue) :=
  match v with
  | JObject props => props
  | JArray items => combine (map decimal (seq 0 (List.length items))) items
  | _ => []
  end.

End Json.

(* ------------------------------------------------------------------ *)
(** ** Data model *)

Inductive TemporalTier : Type := Hot | Warm | Cold | Archived.

Inductive CompressionStrategy : Type := Summary | Embedding | Hybrid.

(** Modelled from the spec: the declaration of [CacheEntryType] in
    [types.ts] is not among the sources; these are the entry types of the
    specification, of which [applySummaryCompression] names six. *)
Inductive CacheEntryType : Type :=
| system_prompt | file_read | file_write | tool_result | bash_output
| user_message | assistant_message | other.

(** A tier's age limit in milliseconds. *)
Inductive MaxAge : Type :=
| Ms (ms : Z)
| Infinity.

(** Modelled from the spec: the records below are declared in [types.ts],
    which is not among the sources; their fields are the ones
    [compression.ts] reads and writes. *)
Record TierConfig : Type := mkTierConfig {
  maxAge : MaxAge;
  compressionRatio : Q
}.

Record Tiers : Type := mkTiers {
  hot : TierConfig;
  warm : TierConfig;
  cold : TierConfig
}.

Record TemporalConfig : Type := mkTemporalConfig {
  tiers : Tiers;
  compressionStrategy : CompressionStrategy;
  promoteOnAccess : bool;
  decayRate : Q
}.

(** [ratio] is [compressedTokens / originalTokens], taken as the exact
    quotient (the code stores the nearest double); [None] stands for the
    value that is not finite when [originalTokens] is 0. *)
Record CompressedEntry : Type := mkCompressedEntry {
  method : CompressionStrategy;
  summary : option string;
  compressedTokens : Z;
  ratio : option Q;
  originalTokens : Z;
  compressedAt : Z
}.

Record CacheEntry : Type := mkCacheEntry {
  id : string;
  content : string;
  type : CacheEntryType;
  tokens : Z;
  tier : TemporalTier;
  timestamp : Z;
  lastAccessedAt : Z;
  compressed : option CompressedEntry
}.

Record TierTransitionResult : Type := mkTierTransitionResult {
  hotToWarm : Z;
  warmToCold : Z;
  coldToArchived : Z;
  promoted : Z;
  tokensSaved : Z;
  durationMs : Z
}.

Definition tier_eqb (a b : TemporalTier) : bool :=
  match a, b with
  | Hot, Hot | Warm, Warm | Cold, Cold | Archived, Archived => true
  | _, _ => false
  end.

(** [entry.tier = t] and [entry.compressed = c] *)
Definition setTier (t : TemporalTier) (e : CacheEntry) : CacheEntry :=
  mkCacheEntry (id e) (content e) (type e) (tokens e) t
               (timestamp e) (lastAccessedAt e) (compressed e).

Definition setCompressed (c : CompressedEntry) (e : CacheEntry) : CacheEntry :=
  mkCacheEntry (id e) (content e) (type e) (tokens e) (tier e)
               (timestamp e) (lastAccessedAt e) (Some c).

(** [age < maxAge] *)
Definition ltMaxAge (age : Z) (m : MaxAge) : bool :=
  match m with
  | Ms ms => age <? ms
  | Infinity => true
  end.

Definition Qlt_bool (x y : Q) : bool := negb (Qle_bool y x).

(* ------------------------------------------------------------------ *)
(** ** The clock *)

(** The [k]-th call of [Date.now()] returns [clock k]. *)
Definition Clock : Type := nat -> Z.

(** A computation that may read the clock: from the number of readings
    taken so far to a value and the new number of readings. *)
Definition Js (A : Type) : Type := Clock -> nat -> A * nat.

Definition ret {A} (a : A) : Js A := fun _ k => (a, k).

Definition bind {A B} (m : Js A) (f : A -> Js B) : Js B :=
  fun clock k => let (a, k') := m clock k in f a clock k'.

Definition Date_now : Js Z := fun clock k => (clock k, S k).

Declare Scope js_scope.
Delimit Scope js_scope with js.
Notation "x <- m ;; f" := (bind m (fun x => f))
  (at level 61, m at next level, right associativity) : js_scope.
Notation "' pat <- m ;; f" := (bind m (fun x => match x with pat => f end))
  (at level 61, pat pattern, m at next level, right associativity) : js_scope.

(** The clock that always shows [now]. *)
Definition fixedClock (now : Z) : Clock := fun _ => now.

(* ------------------------------------------------------------------ *)
(** ** The compressor *)

(** What the summary and the hybrid strategy return:
    [{ summary: string; tokens: number }]. *)
Record SummaryResult : Type := mkSummaryResult {
  s_summary : string;
  s_tokens : Z
}.

(** What [applyCompression] returns: [{ summary?: string; tokens: number }]. *)
Record Compression : Type := mkCompression {
  c_summary : option string;
  c_tokens : Z
}.

Definition withSummary (r : SummaryResult) : Compression :=
  mkCompression (Some (s_summary r)) (s_tokens r).

Definition tierOrder : list TemporalTier := [Hot; Warm; Cold; Archived].

(** [list.indexOf(t)], -1 when [t] does not occur. *)
Fixpoint indexOf (l : list TemporalTier) (t : TemporalTier) : Z :=
  match l with
  | [] => -1
  | x :: l' =>
      if tier_eqb x t then 0
      else let i := indexOf l' t in if i <? 0 then -1 else i + 1
  end.

Definition zeroResult : TierTransitionResult :=
  mkTierTransitionResult 0 0 0 0 0 0.

(** [result.hotToWarm++] and the like. *)
Definition addHotToWarm (r : TierTransitionResult) : TierTransitionResult :=
  mkTierTransitionResult (hotToWarm r + 1) (warmToCold r) (coldToArchived r)
                         (promoted r) (tokensSaved r) (durationMs r).

Definition addWarmToCold (r : TierTransitionResult) : TierTransitionResult :=
  mkTierTransitionResult (hotToWarm r) (warmToCold r + 1) (coldToArchived r)
                         (promoted r) (tokensSaved r) (durationMs r).

Definition addColdToArchived (r : TierTransitionResult) : TierTransitionResult :=
  mkTierTransitionResult (hotToWarm r) (warmToCold r) (coldToArchived r + 1)
                         (promoted r) (tokensSaved r) (durationMs r).

Definition addPromoted (r : TierTransitionResult) : TierTransitionResult :=
  mkTierTransitionResult (hotToWarm r) (warmToCold r) (coldToArchived r)
                         (promoted r + 1) (tokensSaved r) (durationMs r).

(** [result.tokensSaved += d] *)
Definition addTokensSaved (d : Z) (r : TierTransitionResult) : TierTransitionResult :=
  mkTierTransitionResult (hotToWarm r) (warmToCold r) (coldToArchived r)
                         (promoted r) (tokensSaved r + d) (durationMs r).

(** [result.durationMs = d] *)
Definition setDuration (d : Z) (r : TierTransitionResult) : TierTransitionResult :=
  mkTierTransitionResult (hotToWarm r) (warmToCold r) (coldToArchived r)
                         (promoted r) (tokensSaved r) d.

Section TemporalCompressor.

Import JsString.
Local Open Scope string_scope.
Local Open Scope Z_scope.

(** The host's [JSON.parse]; [None] when it throws. *)
Variable JSON_parse : string -> option JsonValue.

(** [this.config] *)
Variable config : TemporalConfig.

Definition newline : string := String (ascii_of_nat 10) EmptyString.

Definition isSignatureLine (trimmed : string) : bool :=
  startsWith trimmed "import "
  || startsWith trimmed "export "
  || startsWith trimmed "function "
  || startsWith trimmed "async function "
  || startsWith trimmed "class "
  || startsWith trimmed "interface "
  || startsWith trimmed "type "
  || matchesArrowFunction trimmed
  || matchesMethodSignature trimmed.

Definition summarizeCode (content : string) (targetTokens : Z) : string :=
  let targetChars := (inject_Z targetTokens * (7 # 2))%Q in
  let importantLines := filter isSignatureLine (map trim (splitLines content)) in
  let result := join newline importantLines in
  let result :=
    if Qlt_bool targetChars (inject_Z (len result))
    then substringTo result targetChars ++ "..."
    else result in
  "[CODE SUMMARY] "
    ++ (if truthy result then result
        else substringTo content targetChars ++ "...").

Fixpoint jsonSummaryEntries (maxChars : Z) (props : list (string * JsonValue))
         (currentLength : Z) : list string :=
  match props with
  | [] => []
  | (key, value) :: rest =>
      let entry :=
        key ++ ": "
            ++ (if Json.isObject value then "[object]"
                else substringTo (Json.toString value) 50) in
      if currentLength + len entry >? maxChars then []
      else entry :: jsonSummaryEntries maxChars rest (currentLength + len entry + 2)
  end.

Definition extractJsonSummary (obj : JsonValue) (maxChars : Z) : string :=
  match obj with
  | JArray _ | JObject _ =>
      join ", " (jsonSummaryEntries maxChars (Json.entries obj) 0)
  | _ => substringTo (Json.toString obj) (inject_Z maxChars)
  end.

Definition summarizeToolOutput (content : string) (targetTokens : Z) : string :=
  let targetChars := targetTokens * 3 in
  let parsed :=
    if startsWith content "{" || startsWith content "["
    then JSON_parse content else None in
  match parsed with
  | Some obj => "[TOOL OUTPUT] " ++ extractJsonSummary obj targetChars
  | None =>
      if len content >? targetChars
      then
        let half := targetChars / 2 in
        "[TOOL OUTPUT] " ++ substringTo content (inject_Z half) ++ "..."
          ++ substringFrom content (inject_Z (len content - half))
      else "[TOOL OUTPUT] " ++ content
  end.

Definition keywords : list string :=
  ["must"; "should"; "important"; "error"; "fix"; "implement"; "create";
   "update"; "delete"].

Definition summarizeConversation (content : string) (targetTokens : Z) : string :=
  let targetChars := targetTokens * 4 in
  if len content <=? targetChars then content
  else
    let sentences := splitSentences content in
    let importantSentences :=
      filter (fun s => existsb (fun kw => includes (toLowerCase s) kw) keywords)
             sentences in
    let result := join ". " importantSentences in
    let result :=
      if len result >? targetChars
      then substringTo result (inject_Z targetChars) ++ "..."
      else if Qlt_bool (inject_Z (len result)) (inject_Z targetChars / 2)
           then substringTo content (inject_Z targetChars / 2) ++ "..." ++ result
           else result in
    "[CONV SUMMARY] " ++ result.

Definition extractKeyContent (content : string) (targetTokens : Z) : string :=
  let targetChars := targetTokens * 4 in
  if len content <=? targetChars then content
  else substringTo content (inject_Z targetChars) ++ "...".

Definition applySummaryCompression (entry : CacheEntry) (targetTokens : Z)
  : SummaryResult :=
  let content := content entry in
  let summary :=
    match type entry with
    | file_read | file_write => summarizeCode content targetTokens
    | tool_result | bash_output => summarizeToolOutput content targetTokens
    | user_message | assistant_message => summarizeConversation content targetTokens
    | _ => extractKeyContent content targetTokens
    end in
  let estimatedTokens := Qceiling (inject_Z (len summary) / 4) in
  mkSummaryResult summary (Z.min targetTokens estimatedTokens).

Definition applyEmbeddingCompression (entry : CacheEntry) : Compression :=
  mkCompression None 10.

Definition applyHybridCompression (entry : CacheEntry) (targetTokens : Z)
  : SummaryResult :=
  let summaryTargetTokens := Qceiling (inject_Z targetTokens * (7 # 10)) in
  let summaryResult := applySummaryCompression entry summaryTargetTokens in
  mkSummaryResult
    ("[EMBEDDING:" ++ id entry ++ "] " ++ s_summary summaryResult)
    (s_tokens summaryResult + 5).

Definition applyCompression (entry : CacheEntry) (targetTokens : Z)
           (strategy : CompressionStrategy) : Compression :=
  match strategy with
  | Summary => withSummary (applySummaryCompression entry targetTokens)
  | Embedding => applyEmbeddingCompression entry
  | Hybrid => withSummary (applyHybridCompression entry targetTokens)
  end.

(** [this.config.tiers[targetTier === 'archived' ? 'cold' : targetTier]
    .compressionRatio], for a target tier that is not hot. *)
Definition compressionRatioFor (targetTier : TemporalTier) : Q :=
  match targetTier with
  | Hot => compressionRatio (hot (tiers config))
  | Warm => compressionRatio (warm (tiers config))
  | Cold | Archived => compressionRatio (cold (tiers config))
  end.

(** [Math.ceil(originalTokens * compressionRatio)] *)
Definition targetTokensFor (entry : CacheEntry) (targetTier : TemporalTier) : Z :=
  Qceiling (inject_Z (tokens entry) * compressionRatioFor targetTier).

Definition compressEntry (entry : CacheEntry) (targetTier : TemporalTier)
  : Js (option CompressedEntry) :=
  if tier_eqb targetTier Hot then ret None
  else
    let compressionRatio := compressionRatioFor targetTier in
    if Qle_bool 1 compressionRatio then ret None
    else
      let originalTokens := tokens entry in
      let targetTokens := targetTokensFor entry targetTier in
      let compressed :=
        applyCompression entry targetTokens (compressionStrategy config) in
      (now <- Date_now ;;
       ret (Some
         (mkCompressedEntry
            (match compressionStrategy config with
             | Embedding => Embedding
             | _ => Summary
             end)
            (c_summary compressed)
            (c_tokens compressed)
            (if originalTokens =? 0 then None
             else Some (inject_Z (c_tokens compressed) / inject_Z originalTokens)%Q)
            originalTokens
            now)))%js.

Definition determineTier (entry : CacheEntry) : Js TemporalTier :=
  (now <- Date_now ;;
   let age := now - timestamp entry in
   if promoteOnAccess config
      && ltMaxAge (now - lastAccessedAt entry) (maxAge (hot (tiers config)))
   then ret Hot
   else if ltMaxAge age (maxAge (hot (tiers config))) then ret Hot
   else if ltMaxAge age (maxAge (warm (tiers config))) then ret Warm
   else ret Cold)%js.

Definition needsTransition (entry : CacheEntry) : Js bool :=
  (targetTier <- determineTier entry ;;
   ret (negb (tier_eqb targetTier (tier entry))))%js.

Definition shouldCompress (currentTier targetTier : TemporalTier) : bool :=
  indexOf tierOrder targetTier >? indexOf tierOrder currentTier.

Definition isPromotion (currentTier targetTier : TemporalTier) : bool :=
  indexOf tierOrder targetTier <? indexOf tierOrder currentTier.

(** [entry.compressed?.compressedTokens ?? entry.tokens] *)
Definition effectiveTokens (entry : CacheEntry) : Z :=
  match compressed entry with
  | Some c => compressedTokens c
  | None => tokens entry
  end.

(** The [if]/[else if] chain under the comment [Track transition]. *)
Definition trackTransition (currentTier targetTier : TemporalTier)
           (r : TierTransitionResult) : TierTransitionResult :=
  if tier_eqb currentTier Hot && tier_eqb targetTier Warm then addHotToWarm r
  else if tier_eqb currentTier Warm && tier_eqb targetTier Cold then addWarmToCold r
  else if tier_eqb currentTier Cold && tier_eqb targetTier Archived
       then addColdToArchived r
  else if isPromotion currentTier targetTier then addPromoted r
  else r.

(** The body of the loop of [processTransitions], for one entry: the
    result record and the entry as the iteration leaves them. *)
Definition transitionEntry (result : TierTransitionResult) (entry : CacheEntry)
  : Js (TierTransitionResult * CacheEntry) :=
  (targetTier <- determineTier entry ;;
   if tier_eqb targetTier (tier entry) then ret (result, entry)
   else
     let oldTokens := effectiveTokens entry in
     '(result1, entry1) <-
        (if shouldCompress (tier entry) targetTier
         then
           compressed <- compressEntry entry targetTier ;;
           match compressed with
           | Some c =>
               ret (addTokensSaved (oldTokens - compressedTokens c) result,
                    setCompressed c entry)
           | None => ret (result, entry)
           end
         else ret (result, entry)) ;;
     ret (trackTransition (tier entry1) targetTier result1,
          setTier targetTier entry1))%js.

Fixpoint transitionLoop (result : TierTransitionResult) (entries : list CacheEntry)
  : Js (TierTransitionResult * list CacheEntry) :=
  match entries with
  | [] => ret (result, [])
  | entry :: rest =>
      ('(result1, entry1) <- transitionEntry result entry ;;
       '(result2, rest1) <- transitionLoop result1 rest ;;
       ret (result2, entry1 :: rest1))%js
  end.

(** The result record, and the entries as the pass leaves them. *)
Definition processTransitions (entries : list CacheEntry)
  : Js (TierTransitionResult * list CacheEntry) :=
  (startTime <- Date_now ;;
   '(result, entries1) <- transitionLoop zeroResult entries ;;
   endTime <- Date_now ;;
   ret (setDuration (endTime - startTime) result, entries1))%js.

(** [calculateDecay(tier)] *)
Definition calculateDecay (t : TemporalTier) : Q :=
  match t with
  | Hot => 0
  | Warm => decayRate config
  | Cold => decayRate config * 2
  | Archived => decayRate config * 3
  end.

End TemporalCompressor.

(* ------------------------------------------------------------------ *)
(** ** Running a pass *)

(** The parts of what [processTransitions] yields: its result record, the
    entries after the pass, and the number of clock readings taken. *)
Definition passResult (x : TierTransitionResult * list CacheEntry * nat)
  : TierTransitionResult := fst (fst x).

Definition passEntries (x : TierTransitionResult * list CacheEntry * nat)
  : list CacheEntry := snd (fst x).

Definition passTicks (x : TierTransitionResult * list CacheEntry * nat)
  : nat := snd x.

(** The tier [determineTier] computes when [Date.now()] returns [now]. *)
Definition tierAt (config : TemporalConfig) (now : Z) (entry : CacheEntry)
  : TemporalTier :=
  fst (determineTier config entry (fixedClock now) 0%nat).

(** [age < maxAge], as a proposition. *)
Definition Younger (age : Z) (m : MaxAge) : Prop :=
  match m with
  | Ms ms => age < ms
  | Infinity => True
  end.

(** A tier's age limit is a positive duration. *)
Definition PositiveAge (m : MaxAge) : Prop := Younger 0 m.

(** The sum of the four transition counters of a result. *)
Definition transitionsCounted (r : TierTransitionResult) : Z :=
  hotToWarm r + warmToCold r + coldToArchived r + promoted r.


(* ------------------------------------------------------------------ *)
(** ** Sample data *)

(** The configuration of the repository's tier demonstration, with the
    strategy left open: hot for 100 ms, warm (ratio 0.25) until 300 ms,
    then cold (ratio 0.03). *)
Definition demoConfig (strategy : CompressionStrategy) : TemporalConfig :=
  mkTemporalConfig
    (mkTiers (mkTierConfig (Ms 100) 1)
             (mkTierConfig (Ms 300) (1 # 4))
             (mkTierConfig Infinity (3 # 100)))
    strategy true (3 # 10).

(** The same tiers with a cold ratio of one half. *)
Definition halfColdConfig (strategy : CompressionStrategy) : TemporalConfig :=
  mkTemporalConfig
    (mkTiers (mkTierConfig (Ms 100) 1)
             (mkTierConfig (Ms 300) (1 # 4))
             (mkTierConfig Infinity (1 # 2)))
    strategy true (3 # 10).

Definition sampleEntry (tokens : Z) (t : TemporalTier) (created accessed : Z)
           (compressed : option CompressedEntry) : CacheEntry :=
  mkCacheEntry "e1" "abcdefgh" other tokens t created accessed compressed.

(** A record as the embedding strategy leaves it on a 400-token entry. *)
Definition sampleCompressed : CompressedEntry :=
  mkCompressedEntry Embedding None 10 (Some (10 # 400)) 400 400.

(** A host whose [JSON.parse] rejects its input. *)
Definition rejectJson : string -> option JsonValue := fun _ => None.

(* ------------------------------------------------------------------ *)
(** ** Measures of a list of entries and of a clock *)

(** The position of a tier in [tierOrder]. *)
Definition tierIndex (t : TemporalTier) : Z := indexOf tierOrder t.

(** The sum of [entry.compressed?.compressedTokens ?? entry.tokens] over the
    entries: what counts toward utilisation. *)
Definition totalEffectiveTokens (entries : list CacheEntry) : Z :=
  fold_right (fun e acc => effectiveTokens e + acc) 0 entries.

(** The sum of [d before after] over the positions of two lists of
    entries, one before and one after a pass. *)
Fixpoint sumPairs (d : CacheEntry -> CacheEntry -> Z)
         (before after : list CacheEntry) : Z :=
  match before, after with
  | e :: before', e' :: after' => d e e' + sumPairs d before' after'
  | _, _ => 0
  end.

(** The number of positions at which the tier before and the tier after a
    pass satisfy [p]. *)
Definition movesWhere (p : TemporalTier -> TemporalTier -> bool)
           (before after : list CacheEntry) : Z :=
  sumPairs (fun e e' => if p (tier e) (tier e') then 1 else 0) before after.

(** A move from hot to warm, from warm to cold, and any change of tier
    other than the one from hot to cold. *)
Definition isHotToWarm (a b : TemporalTier) : bool :=
  tier_eqb a Hot && tier_eqb b Warm.

Definition isWarmToCold (a b : TemporalTier) : bool :=
  tier_eqb a Warm && tier_eqb b Cold.

Definition isCountedMove (a b : TemporalTier) : bool :=
  negb (tier_eqb a b) && negb (tier_eqb a Hot && tier_eqb b Cold).

(** A compressed record remembers the token count of its entry. *)
Definition RecordsOriginalTokens (e : CacheEntry) : Prop :=
  match compressed e with
  | Some c => originalTokens c = tokens e
  | None => True
  end.

(** A clock that never runs backwards. *)
Definition MonotoneClock (clock : Clock) : Prop :=
  forall i j : nat, (i <= j)%nat -> clock i <= clock j.

(** A clock that advances 50 ms with every reading. *)
Definition tickingClock : Clock := fun k => 1000 + 50 * Z.of_nat k.

(** The demonstration's tiers with a hot tier of no duration. *)
Definition noHotConfig : TemporalConfig :=
  mkTemporalConfig
    (mkTiers (mkTierConfig (Ms 0) 1)
             (mkTierConfig (Ms 300) (1 # 4))
             (mkTierConfig Infinity (3 # 100)))
    Summary true (3 # 10).


(* ------------------------------------------------------------------ *)
(** ** Basic facts *)

Lemma tier_eqb_eq (a b : TemporalTier) : tier_eqb a b = true <-> a = b.
Proof. destruct a, b; simpl; split; congruence. Qed.

Lemma tier_eqb_refl (a : TemporalTier) : tier_eqb a a = true.
Proof. now destruct a. Qed.

Lemma ltMaxAge_spec (age : Z) (m : MaxAge) :
  ltMaxAge age m = true <-> Younger age m.
Proof.
  destruct m as [ms|]; simpl.
  - apply Z.ltb_lt.
  - tauto.
Qed.

Lemma ltMaxAge_false (age : Z) (m : MaxAge) :
  ltMaxAge age m = false <-> ~ Younger age m.
Proof.
  rewrite <- ltMaxAge_spec. destruct (ltMaxAge age m); split; congruence.
Qed.

Lemma Younger_mono (a b : Z) (m : MaxAge) :
  a <= b -> Younger b m -> Younger a m.
Proof. destruct m; simpl; [lia | trivial]. Qed.

(** *** How the monadic definitions run *)

Lemma determineTier_run (config : TemporalConfig) (entry : CacheEntry)
      (clock : Clock) (k : nat) :
  determineTier config entry clock k = (tierAt config (clock k) entry, S k).
Proof.
  unfold tierAt, determineTier, bind, Date_now, fixedClock, ret.
  destruct (promoteOnAccess config
            && ltMaxAge (clock k - lastAccessedAt entry) (maxAge (hot (tiers config))));
    [reflexivity|].
  destruct (ltMaxAge (clock k - timestamp entry) (maxAge (hot (tiers config))));
    [reflexivity|].
  destruct (ltMaxAge (clock k - timestamp entry) (maxAge (warm (tiers config))));
    reflexivity.
Qed.

Lemma tierAt_not_archived (config : TemporalConfig) (now : Z) (entry : CacheEntry) :
  tierAt config now entry <> Archived.
Proof.
  unfold tierAt, determineTier, bind, Date_now, fixedClock, ret.
  destruct (promoteOnAccess config && _); [simpl; congruence|].
  destruct (ltMaxAge _ (maxAge (hot (tiers config)))); [simpl; congruence|].
  destruct (ltMaxAge _ (maxAge (warm (tiers config)))); simpl; congruence.
Qed.

(** [tierAt] reads the two timestamps of the entry and nothing else. *)
Lemma tierAt_ext (config : TemporalConfig) (now : Z) (e e' : CacheEntry) :
  timestamp e' = timestamp e -> lastAccessedAt e' = lastAccessedAt e ->
  tierAt config now e' = tierAt config now e.
Proof.
  intros Ht Ha. unfold tierAt, determineTier, bind, Date_now, fixedClock, ret.
  now rewrite Ht, Ha.
Qed.

(** [compressEntry] either returns [undefined] without reading the clock,
    or reads it once and returns a record built from [applyCompression]. *)
Lemma compressEntry_run JSON_parse config entry targetTier clock k :
  compressEntry JSON_parse config entry targetTier clock k =
    if tier_eqb targetTier Hot || Qle_bool 1 (compressionRatioFor config targetTier)
    then (None, k)
    else
      let compressed :=
        applyCompression JSON_parse entry
          (targetTokensFor config entry targetTier) (compressionStrategy config) in
      (Some
         (mkCompressedEntry
            (match compressionStrategy config with
             | Embedding => Embedding
             | _ => Summary
             end)
            (c_summary compressed)
            (c_tokens compressed)
            (if tokens entry =? 0 then None
             else Some (inject_Z (c_tokens compressed) / inject_Z (tokens entry))%Q)
            (tokens entry)
            (clock k)),
       S k).
Proof.
  unfold compressEntry.
  destruct (tier_eqb targetTier Hot); [reflexivity|].
  destruct (Qle_bool 1 (compressionRatioFor config targetTier)); reflexivity.
Qed.

Lemma shouldCompress_to_hot (t : TemporalTier) : shouldCompress t Hot = false.
Proof. now destruct t. Qed.


(** One iteration of the loop, with the clock readings made explicit. *)
Lemma transitionEntry_run JSON_parse config result entry clock k :
  transitionEntry JSON_parse config result entry clock k =
    let targetTier := tierAt config (clock k) entry in
    if tier_eqb targetTier (tier entry) then (result, entry, S k)
    else if shouldCompress (tier entry) targetTier
    then
      match compressEntry JSON_parse config entry targetTier clock (S k) with
      | (Some c, k') =>
          (trackTransition (tier entry) targetTier
             (addTokensSaved (effectiveTokens entry - compressedTokens c) result),
           setTier targetTier (setCompressed c entry), k')
      | (None, k') =>
          (trackTransition (tier entry) targetTier result,
           setTier targetTier entry, k')
      end
    else (trackTransition (tier entry) targetTier result,
          setTier targetTier entry, S k).
Proof.
  unfold transitionEntry, bind at 1. rewrite determineTier_run. cbv zeta.
  destruct (tier_eqb _ (tier entry)); [reflexivity|].
  destruct (shouldCompress (tier entry) _).
  - unfold bind.
    destruct (compressEntry JSON_parse config entry _ clock (S k)) as [[c|] k'];
      reflexivity.
  - reflexivity.
Qed.

(** *** One iteration *)

Section Iteration.

Variable JSON_parse : string -> option JsonValue.
Variable config : TemporalConfig.

Let step := transitionEntry JSON_parse config.

Ltac run_step :=
  unfold step; rewrite transitionEntry_run; cbv zeta;
  let E := fresh "Eskip" in
  let C := fresh "Ecompress" in
  destruct (tier_eqb _ _) eqn:E;
  [ | destruct (shouldCompress _ _) eqn:C;
      [ destruct (compressEntry _ _ _ _ _ _) as [[?c|] ?k'] | ] ].

(** The entry leaves the iteration in the tier [determineTier] computed. *)
Lemma step_tier result entry clock k :
  tier (snd (fst (step result entry clock k))) = tierAt config (clock k) entry.
Proof.
  run_step; simpl; try reflexivity.
  apply tier_eqb_eq in Eskip. now symmetry.
Qed.

Lemma step_timestamps result entry clock k :
  timestamp (snd (fst (step result entry clock k))) = timestamp entry
  /\ lastAccessedAt (snd (fst (step result entry clock k))) = lastAccessedAt entry.
Proof. run_step; simpl; auto. Qed.

(** An iteration that leaves the entry hot has not touched [compressed]. *)
Lemma step_hot_keeps_compressed result entry clock k :
  tier (snd (fst (step result entry clock k))) = Hot ->
  compressed (snd (fst (step result entry clock k))) = compressed entry.
Proof.
  rewrite step_tier. intros Hhot. revert Hhot.
  run_step; simpl; intros Hhot; try reflexivity;
    rewrite Hhot, shouldCompress_to_hot in Ecompress; discriminate.
Qed.

Lemma trackTransition_coldToArchived current target result :
  target <> Archived ->
  coldToArchived (trackTransition current target result) = coldToArchived result.
Proof.
  intros Ht. destruct current, target; try reflexivity; congruence.
Qed.

Lemma step_coldToArchived result entry clock k :
  coldToArchived (fst (fst (step result entry clock k))) = coldToArchived result.
Proof.
  run_step; simpl; try reflexivity;
    rewrite trackTransition_coldToArchived by apply tierAt_not_archived;
    reflexivity.
Qed.


(** Among the moves a pass can make (the target is never archived), every
    one adds exactly one to one of the four counters, except the move from
    hot to cold, which adds nothing. *)
Lemma trackTransition_counted current target result :
  current <> target -> target <> Archived ->
  transitionsCounted (trackTransition current target result)
  = transitionsCounted result
    + (if tier_eqb current Hot && tier_eqb target Cold then 0 else 1).
Proof.
  intros Hmove Htarget.
  destruct current, target; try congruence;
    unfold transitionsCounted, trackTransition, isPromotion, addHotToWarm,
           addWarmToCold, addColdToArchived, addPromoted;
    simpl; lia.
Qed.



(** An iteration whose entry already has its tier changes nothing. *)
Lemma step_settled result entry clock k :
  tier entry = tierAt config (clock k) entry ->
  step result entry clock k = (result, entry, S k).
Proof.
  intros Hsame. unfold step. rewrite transitionEntry_run. cbv zeta.
  rewrite <- Hsame, tier_eqb_refl. reflexivity.
Qed.

End Iteration.

(** *** The whole pass *)

Section Pass.

Variable JSON_parse : string -> option JsonValue.
Variable config : TemporalConfig.

Let loop := transitionLoop JSON_parse config.
Let step := transitionEntry JSON_parse config.

Lemma loop_cons result entry rest clock k :
  loop result (entry :: rest) clock k =
    let x := step result entry clock k in
    let y := loop (fst (fst x)) rest clock (snd x) in
    (passResult y, snd (fst x) :: passEntries y, passTicks y).
Proof.
  unfold loop, step. simpl. unfold bind.
  destruct (transitionEntry JSON_parse config result entry clock k)
    as [[result1 entry1] k1].
  simpl.
  destruct (transitionLoop JSON_parse config result1 rest clock k1)
    as [[result2 rest1] k2].
  reflexivity.
Qed.

(** A relation every iteration establishes between the entry before and
    after holds between the lists before and after the loop. *)
Lemma loop_Forall2 clock (P : CacheEntry -> CacheEntry -> Prop) :
  (forall result entry k, P entry (snd (fst (step result entry clock k)))) ->
  forall entries result k,
    Forall2 P entries (passEntries (loop result entries clock k)).
Proof.
  intros Hstep entries.
  induction entries as [|entry rest IH]; intros result k.
  - constructor.
  - rewrite loop_cons. cbv zeta. unfold passEntries at 1. simpl.
    constructor; [apply Hstep | apply IH].
Qed.

(** A counter no iteration changes is not changed by the loop. *)
Lemma loop_counter (f : TierTransitionResult -> Z) :
  (forall result entry clock k, f (fst (fst (step result entry clock k))) = f result) ->
  forall entries result clock k,
    f (passResult (loop result entries clock k)) = f result.
Proof.
  intros Hstep entries.
  induction entries as [|entry rest IH]; intros result clock k.
  - reflexivity.
  - rewrite loop_cons. cbv zeta. unfold passResult at 1. simpl.
    fold (passResult (loop (fst (fst (step result entry clock k))) rest clock
                           (snd (step result entry clock k)))).
    rewrite IH. apply Hstep.
Qed.

Lemma processTransitions_run entries clock k :
  processTransitions JSON_parse config entries clock k =
    let x := loop zeroResult entries clock (S k) in
    (setDuration (clock (passTicks x) - clock k) (passResult x),
     passEntries x, S (passTicks x)).
Proof.
  unfold processTransitions, bind, Date_now, ret, loop.
  destruct (transitionLoop JSON_parse config zeroResult entries clock (S k))
    as [[result entries1] k1].
  reflexivity.
Qed.


(** Under a clock that stands still, entries that already have the tier
    of their age pass through the loop untouched. *)
Lemma loop_settled now entries :
  Forall (fun e => tier e = tierAt config now e) entries ->
  forall result k,
    loop result entries (fixedClock now) k
    = (result, entries, (k + List.length entries)%nat).
Proof.
  induction 1 as [|entry rest Hentry _ IH]; intros result k.
  - simpl. unfold ret. now rewrite Nat.add_0_r.
  - rewrite loop_cons. cbv zeta. unfold step.
    rewrite (step_settled JSON_parse config result entry (fixedClock now) k Hentry).
    simpl. rewrite IH. unfold passResult, passEntries, passTicks. simpl.
    now rewrite Nat.add_succ_r.
Qed.

Lemma loop_settles now entries result k :
  Forall (fun e => tier e = tierAt config now e)
         (passEntries (loop result entries (fixedClock now) k)).
Proof.
  pose proof (loop_Forall2 (fixedClock now)
    (fun e e' => tier e' = tierAt config now e'
                 /\ timestamp e' = timestamp e)) as H2.
  assert (Hall : Forall2 (fun e e' => tier e' = tierAt config now e'
                                      /\ timestamp e' = timestamp e)
                   entries (passEntries (loop result entries (fixedClock now) k))).
  { apply H2. intros r e k0. unfold step. split.
    - rewrite step_tier. symmetry. apply tierAt_ext;
        apply (step_timestamps JSON_parse config r e (fixedClock now) k0).
    - apply (step_timestamps JSON_parse config r e (fixedClock now) k0). }
  clear H2. induction Hall as [|e e' l l' [He _] _ IH]; constructor; assumption.
Qed.

End Pass.

(* ------------------------------------------------------------------ *)
(** ** Tier assignment *)

(** C4. For every entry and every reading [now] of the clock,
    [determineTier] reads the clock once and follows the cascade: hot when
    [promoteOnAccess] is set and [now - lastAccessedAt] is below the hot
    tier's max age; otherwise hot when the age [now - timestamp] is below
    the hot tier's max age; otherwise warm when the age is below the warm
    tier's max age; otherwise cold. *)
Theorem determineTier_cascade (config : TemporalConfig) (entry : CacheEntry)
        (clock : Clock) (k : nat) :
  let now := clock k in
  let age := now - timestamp entry in
  let hotMax := maxAge (hot (tiers config)) in
  let warmMax := maxAge (warm (tiers config)) in
  let accessedRecently :=
    promoteOnAccess config = true /\ Younger (now - lastAccessedAt entry) hotMax in
  let target := fst (determineTier config entry clock k) in
  snd (determineTier config entry clock k) = S k
  /\ (accessedRecently -> target = Hot)
  /\ (~ accessedRecently -> Younger age hotMax -> target = Hot)
  /\ (~ accessedRecently -> ~ Younger age hotMax -> Younger age warmMax ->
      target = Warm)
  /\ (~ accessedRecently -> ~ Younger age hotMax -> ~ Younger age warmMax ->
      target = Cold).
Proof.
  cbv zeta. unfold determineTier, bind, Date_now, ret.
  destruct (promoteOnAccess config) eqn:Hp; simpl andb;
    destruct (ltMaxAge (clock k - lastAccessedAt entry) (maxAge (hot (tiers config))))
      eqn:Ha;
    destruct (ltMaxAge (clock k - timestamp entry) (maxAge (hot (tiers config))))
      eqn:Hh;
    destruct (ltMaxAge (clock k - timestamp entry) (maxAge (warm (tiers config))))
      eqn:Hw;
    simpl;
    repeat match goal with
           | H : ltMaxAge _ _ = true |- _ => apply ltMaxAge_spec in H
           | H : ltMaxAge _ _ = false |- _ => apply ltMaxAge_false in H
           end;
    repeat split; intros; try reflexivity; try tauto; try (exfalso; intuition congruence).
Qed.

(** C5. [determineTier] returns hot, warm or cold for every entry and every
    clock, so after a pass of [processTransitions] no entry is in the
    archived tier, however old it is, and the pass counts no move from cold
    to archived. *)
Theorem transitions_never_archive (JSON_parse : string -> option JsonValue)
        (config : TemporalConfig) (entries : list CacheEntry)
        (clock : Clock) (k : nat) :
  (forall entry,
      let target := fst (determineTier config entry clock k) in
      target = Hot \/ target = Warm \/ target = Cold)
  /\ Forall (fun e => tier e <> Archived)
            (passEntries (processTransitions JSON_parse config entries clock k))
  /\ coldToArchived
       (passResult (processTransitions JSON_parse config entries clock k)) = 0.
Proof.
  split; [|split].
  - intros entry. cbv zeta. rewrite determineTier_run. simpl.
    pose proof (tierAt_not_archived config (clock k) entry).
    destruct (tierAt config (clock k) entry); auto. congruence.
  - rewrite processTransitions_run. cbv zeta. unfold passEntries at 1. simpl.
    pose proof (loop_Forall2 JSON_parse config clock
                  (fun _ e' => tier e' <> Archived)) as H2.
    assert (Hall : Forall2 (fun _ e' => tier e' <> Archived) entries
                     (passEntries
                        (transitionLoop JSON_parse config zeroResult entries clock (S k)))).
    { apply H2. intros r e k0. rewrite step_tier. apply tierAt_not_archived. }
    clear H2. induction Hall; constructor; assumption.
  - rewrite processTransitions_run. cbv zeta. unfold passResult at 1. simpl.
    apply (loop_counter JSON_parse config coldToArchived).
    intros r e c k0. apply step_coldToArchived.
Qed.

(** C9, as the code has it. When the clock is not ahead of the entry's
    timestamps ([now <= timestamp] and [now <= lastAccessedAt], so the
    computed age is zero or negative) and the hot tier's max age is a
    positive duration, [determineTier] returns hot. *)
Theorem determineTier_clock_behind (config : TemporalConfig) (entry : CacheEntry)
        (clock : Clock) (k : nat) :
  PositiveAge (maxAge (hot (tiers config))) ->
  clock k <= timestamp entry ->
  clock k <= lastAccessedAt entry ->
  fst (determineTier config entry clock k) = Hot.
Proof.
  intros Hpos Hcreated Haccessed.
  unfold determineTier, bind, Date_now, ret.
  assert (Hage : ltMaxAge (clock k - timestamp entry) (maxAge (hot (tiers config)))
                 = true).
  { apply ltMaxAge_spec. apply Younger_mono with (b := 0); [lia | exact Hpos]. }
  rewrite Hage.
  destruct (promoteOnAccess config && _); reflexivity.
Qed.

Lemma determineTier_clock_behind_witness :
  fst (determineTier (demoConfig Hybrid) (sampleEntry 400 Cold 1000 1000 None)
                     (fixedClock 900) 0%nat) = Hot.
Proof.
  apply determineTier_clock_behind.
  - simpl. lia.
  - unfold fixedClock. simpl. lia.
  - unfold fixedClock. simpl. lia.
Defined.

(** C9 fails as stated: with a hot tier whose max age is 0, an entry whose
    two timestamps equal the time read from the clock has age 0, which is
    not below 0, and [determineTier] returns warm. *)
Lemma clock_behind_without_hot_tier :
  fixedClock 1000 0%nat <= timestamp (sampleEntry 400 Hot 1000 1000 None)
  /\ fixedClock 1000 0%nat <= lastAccessedAt (sampleEntry 400 Hot 1000 1000 None)
  /\ fst (determineTier noHotConfig (sampleEntry 400 Hot 1000 1000 None)
                        (fixedClock 1000) 0%nat) = Warm.
Proof.
  split; [unfold fixedClock; simpl; lia|].
  split; [unfold fixedClock; simpl; lia|].
  reflexivity.
Qed.

(* ------------------------------------------------------------------ *)
(** ** The compressor *)

Lemma Qle_bool_false (x y : Q) : Qle_bool x y = false -> (y < x)%Q.
Proof.
  intros H. apply Qnot_le_lt. intros Hle.
  apply Qle_bool_iff in Hle. congruence.
Qed.

Lemma Qlt_Qle_bool_false (x y : Q) : (y < x)%Q -> Qle_bool x y = false.
Proof.
  intros H. destruct (Qle_bool x y) eqn:E; [|reflexivity].
  apply Qle_bool_iff in E. exfalso. exact (Qlt_not_le _ _ H E).
Qed.

(** A share below one of a non-negative count, rounded up, is at most the
    count. *)
Lemma ceiling_share_le (n : Z) (r : Q) :
  0 <= n -> (r < 1)%Q -> Qceiling (inject_Z n * r) <= n.
Proof.
  intros Hn Hr.
  rewrite <- (Qceiling_Z n) at 2.
  apply Qceiling_resp_le.
  destruct r as [p d]. unfold Qlt, Qle, Qmult, inject_Z in *. simpl in *.
  nia.
Qed.

Lemma applySummaryCompression_le JSON_parse entry targetTokens :
  s_tokens (applySummaryCompression JSON_parse entry targetTokens) <= targetTokens.
Proof. unfold applySummaryCompression. simpl. apply Z.le_min_l. Qed.

(** C1, as the code has it. For every entry with a non-negative token count
    and every target tier other than hot whose ratio is below 1,
    [compressEntry] produces a record, whatever the counts are.  Under the
    summary strategy its [compressedTokens] is at most the target
    [ceil(tokens * ratio)], hence at most the entry's tokens; under the
    embedding strategy it is the constant 10; under the hybrid strategy it
    is the summary's tokens plus 5, at most [ceil(0.7 * target) + 5]. *)
Theorem compressEntry_token_bounds (JSON_parse : string -> option JsonValue)
        (config : TemporalConfig) (entry : CacheEntry) (targetTier : TemporalTier)
        (clock : Clock) (k : nat) :
  0 <= tokens entry ->
  targetTier <> Hot ->
  (compressionRatioFor config targetTier < 1)%Q ->
  exists c,
    compressEntry JSON_parse config entry targetTier clock k = (Some c, S k)
    /\ originalTokens c = tokens entry
    /\ (compressionStrategy config = Summary ->
        compressedTokens c <= targetTokensFor config entry targetTier
        /\ compressedTokens c <= tokens entry)
    /\ (compressionStrategy config = Embedding -> compressedTokens c = 10)
    /\ (compressionStrategy config = Hybrid ->
        let summaryTarget :=
          Qceiling (inject_Z (targetTokensFor config entry targetTier) * (7 # 10)) in
        compressedTokens c
        = s_tokens (applySummaryCompression JSON_parse entry summaryTarget) + 5
        /\ compressedTokens c <= summaryTarget + 5).
Proof.
  intros Htokens Hhot Hratio.
  rewrite compressEntry_run.
  assert (Hh : tier_eqb targetTier Hot = false).
  { destruct (tier_eqb targetTier Hot) eqn:E; [|reflexivity].
    apply tier_eqb_eq in E. contradiction. }
  rewrite Hh, (Qlt_Qle_bool_false Hratio). simpl orb. cbv iota zeta.
  eexists. split; [reflexivity|]. simpl.
  split; [reflexivity|].
  split; [|split]; intros Hs; rewrite Hs; simpl.
  - assert (Hle := applySummaryCompression_le JSON_parse entry
                     (targetTokensFor config entry targetTier)).
    split; [exact Hle|].
    etransitivity; [exact Hle|].
    apply ceiling_share_le; assumption.
  - reflexivity.
  - split; [reflexivity|].
    apply Z.add_le_mono_r. apply applySummaryCompression_le.
Qed.

Lemma compressEntry_token_bounds_witness :
  exists c,
    compressEntry rejectJson (demoConfig Summary)
                  (sampleEntry 400 Hot 0 0 None) Warm (fixedClock 150) 1%nat
    = (Some c, 2%nat)
    /\ compressedTokens c <= 400.
Proof.
  destruct (@compressEntry_token_bounds rejectJson (demoConfig Summary)
              (sampleEntry 400 Hot 0 0 None) Warm (fixedClock 150) 1%nat)
    as [c [Hrun [_ [Hsummary _]]]].
  - simpl. lia.
  - discriminate.
  - reflexivity.
  - exists c. split; [exact Hrun|]. apply Hsummary. reflexivity.
Defined.

(** C1 fails as stated: on a 4-token entry demoted to warm (ratio 0.25) the
    embedding strategy yields a record of 10 tokens and the hybrid strategy
    one of 6 tokens; in both cases the record is returned, not withheld. *)
Lemma compressEntry_can_exceed_tokens :
  tokens (sampleEntry 4 Hot 0 0 None) = 4
  /\ (forall JSON_parse,
         option_map compressedTokens
           (fst (compressEntry JSON_parse (demoConfig Embedding)
                               (sampleEntry 4 Hot 0 0 None) Warm (fixedClock 150) 1%nat))
         = Some 10)
  /\ (forall JSON_parse,
         option_map compressedTokens
           (fst (compressEntry JSON_parse (demoConfig Hybrid)
                               (sampleEntry 4 Hot 0 0 None) Warm (fixedClock 150) 1%nat))
         = Some 6).
Proof.
  split; [reflexivity|].
  split; intros JSON_parse; vm_compute; reflexivity.
Qed.

(** C7, as the code has it. A compression for the archived tier uses the
    ratio configured for the cold tier: the target size is
    [ceil(tokens * cold ratio)], and [compressEntry] does for archived
    exactly what it does for cold. *)
Theorem archived_uses_cold_ratio (JSON_parse : string -> option JsonValue)
        (config : TemporalConfig) (entry : CacheEntry) (clock : Clock) (k : nat) :
  compressionRatioFor config Archived = compressionRatio (cold (tiers config))
  /\ targetTokensFor config entry Archived
     = Qceiling (inject_Z (tokens entry) * compressionRatio (cold (tiers config)))
  /\ compressEntry JSON_parse config entry Archived clock k
     = compressEntry JSON_parse config entry Cold clock k.
Proof.
  split; [reflexivity|]. split; [reflexivity|].
  rewrite !compressEntry_run. reflexivity.
Qed.

(** C7 fails as stated: with a cold ratio of one half a 100-token entry is
    given the target 50 for the archived tier, not [ceil(100 * 0.03) = 3],
    and the summary of its 400 characters is counted as 50 tokens. *)
Lemma archived_ratio_is_not_fixed :
  Qceiling (inject_Z 100 * (3 # 100)) = 3
  /\ targetTokensFor (halfColdConfig Summary)
       (mkCacheEntry "e1" (JsString.repeat "abcdefgh" 50) other 100 Cold 0 0 None)
       Archived = 50
  /\ (forall JSON_parse,
         option_map compressedTokens
           (fst (compressEntry JSON_parse (halfColdConfig Summary)
                   (mkCacheEntry "e1" (JsString.repeat "abcdefgh" 50)
                                 other 100 Cold 0 0 None)
                   Archived (fixedClock 1000) 1%nat))
         = Some 50).
Proof.
  split; [reflexivity|]. split; [reflexivity|].
  intros JSON_parse. vm_compute. reflexivity.
Qed.

(** C8, as the code has it. The [method] of every record [compressEntry]
    produces is embedding when the configured strategy is embedding and
    summary otherwise: the summary and the hybrid strategy both yield
    summary. *)
Theorem compressEntry_method (JSON_parse : string -> option JsonValue)
        (config : TemporalConfig) (entry : CacheEntry) (targetTier : TemporalTier)
        (clock : Clock) (k : nat) (c : CompressedEntry) :
  fst (compressEntry JSON_parse config entry targetTier clock k) = Some c ->
  method c = match compressionStrategy config with
             | Summary => Summary
             | Embedding => Embedding
             | Hybrid => Summary
             end.
Proof.
  rewrite compressEntry_run.
  destruct (tier_eqb targetTier Hot || Qle_bool 1 (compressionRatioFor config targetTier));
    simpl; intros H; [discriminate|].
  injection H as <-. simpl.
  destruct (compressionStrategy config); reflexivity.
Qed.

Lemma compressEntry_method_witness :
  method (mkCompressedEntry Embedding None 10 (Some (10 # 400)) 400 150) = Embedding.
Proof.
  apply (@compressEntry_method rejectJson (demoConfig Embedding)
           (sampleEntry 400 Hot 0 0 None) Warm (fixedClock 150) 1%nat).
  vm_compute. reflexivity.
Defined.

(** C8 fails as stated: under the hybrid strategy the record's method is
    summary, not hybrid. *)
Lemma hybrid_method_is_summary :
  compressionStrategy (demoConfig Hybrid) = Hybrid
  /\ forall JSON_parse,
       option_map method
         (fst (compressEntry JSON_parse (demoConfig Hybrid)
                             (sampleEntry 400 Hot 0 0 None) Warm (fixedClock 150) 1%nat))
       = Some Summary.
Proof.
  split; [reflexivity|]. intros JSON_parse. vm_compute. reflexivity.
Qed.

(* ------------------------------------------------------------------ *)
(** ** The transition pass *)



(** C2, as the code has it. [compressEntry] returns no record for the hot
    tier, and a transition pass never writes [compressed] on an entry it
    leaves hot: every entry that is hot after the pass has the [compressed]
    field it had before the pass (absent if it was absent, and still
    present on a promoted entry that carried one). *)
Theorem hot_entries_keep_compressed (JSON_parse : string -> option JsonValue)
        (config : TemporalConfig) (entries : list CacheEntry)
        (clock : Clock) (k : nat) :
  (forall entry, compressEntry JSON_parse config entry Hot clock k = (None, k))
  /\ Forall2 (fun e e' => tier e' = Hot -> compressed e' = compressed e)
             entries
             (passEntries (processTransitions JSON_parse config entries clock k)).
Proof.
  split.
  - intros entry. rewrite compressEntry_run. reflexivity.
  - rewrite processTransitions_run. cbv zeta. unfold passEntries at 1. simpl.
    apply (loop_Forall2 JSON_parse config clock
             (fun e e' => tier e' = Hot -> compressed e' = compressed e)).
    intros r e k0. apply step_hot_keeps_compressed.
Qed.

(** C2 fails as stated: a cold entry that carries a compressed record and
    was accessed at the time of the pass is promoted to hot, counted as
    promoted, and still carries the record. *)
Lemma promotion_keeps_compressed :
  compressed (sampleEntry 400 Hot 0 1000 (Some sampleCompressed))
  = Some sampleCompressed
  /\ (forall JSON_parse,
         processTransitions JSON_parse (demoConfig Embedding)
           [sampleEntry 400 Cold 0 1000 (Some sampleCompressed)]
           (fixedClock 1000) 0%nat
         = (mkTierTransitionResult 0 0 0 1 0 0,
            [sampleEntry 400 Hot 0 1000 (Some sampleCompressed)],
            3%nat)).
Proof.
  split; [reflexivity|]. intros JSON_parse. vm_compute. reflexivity.
Qed.

(** C3 at a hot entry older than the warm tier's max age: the pass moves it
    from hot to cold and compresses it (390 tokens saved), and none of the
    four transition counters moves. *)
Theorem hot_to_cold_is_not_counted :
  tier (sampleEntry 400 Hot 0 0 None) = Hot
  /\ (forall JSON_parse,
         let pass :=
           processTransitions JSON_parse (demoConfig Embedding)
             [sampleEntry 400 Hot 0 0 None] (fixedClock 400) 0%nat in
         map tier (passEntries pass) = [Cold]
         /\ passResult pass = mkTierTransitionResult 0 0 0 0 390 0).
Proof.
  split; [reflexivity|]. intros JSON_parse. vm_compute. split; reflexivity.
Qed.

(** Under a clock that stands still, a pass over entries that already have
    the tier of their age changes nothing and counts nothing. *)
Lemma processTransitions_settled JSON_parse config now entries k :
  Forall (fun e => tier e = tierAt config now e) entries ->
  processTransitions JSON_parse config entries (fixedClock now) k
  = (zeroResult, entries, S (S k + List.length entries)).
Proof.
  intros Hsettled. rewrite processTransitions_run. cbv zeta.
  rewrite (@loop_settled JSON_parse config now entries Hsettled).
  unfold passEntries, passResult, passTicks, fixedClock, setDuration. simpl.
  rewrite Z.sub_diag. reflexivity.
Qed.

(** C6. Under a clock that stands still a second pass is a no-op: after the
    first pass [needsTransition] is false for every entry, and the second
    pass leaves every entry as the first pass left it (tier and
    [compressed] included) and returns a result whose counters, tokens
    saved and duration are all zero. *)
Theorem transitions_idempotent (JSON_parse : string -> option JsonValue)
        (config : TemporalConfig) (now : Z) (entries : list CacheEntry) (k : nat) :
  let first := processTransitions JSON_parse config entries (fixedClock now) k in
  let second :=
    processTransitions JSON_parse config (passEntries first) (fixedClock now)
                       (passTicks first) in
  Forall (fun e => fst (needsTransition config e (fixedClock now) (passTicks first))
                   = false)
         (passEntries first)
  /\ passEntries second = passEntries first
  /\ passResult second = zeroResult.
Proof.
  cbv zeta.
  assert (Hsettled : Forall (fun e => tier e = tierAt config now e)
                       (passEntries
                          (processTransitions JSON_parse config entries
                                              (fixedClock now) k))).
  { rewrite processTransitions_run. cbv zeta. unfold passEntries at 1. simpl.
    apply loop_settles. }
  split.
  - apply Forall_forall. intros e He.
    rewrite Forall_forall in Hsettled. specialize (Hsettled e He).
    unfold needsTransition, bind. rewrite determineTier_run.
    unfold ret, fixedClock. simpl.
    rewrite <- Hsettled, tier_eqb_refl. reflexivity.
  - rewrite (@processTransitions_settled JSON_parse config now _ _ Hsettled).
    split; reflexivity.
Qed.

(* ------------------------------------------------------------------ *)
(** ** Lengths of summaries *)

Section SummaryLengths.

Import JsString.
Local Open Scope string_scope.
Local Open Scope Z_scope.

Lemma gtb_false (a b : Z) : (a >? b) = false -> a <= b.
Proof. rewrite Z.gtb_ltb. apply Z.ltb_ge. Qed.

Lemma gtb_true (a b : Z) : (a >? b) = true -> b < a.
Proof. rewrite Z.gtb_ltb. apply Z.ltb_lt. Qed.

Lemma len_nonneg (s : string) : 0 <= len s.
Proof. unfold len. lia. Qed.

Lemma len_String (c : ascii) (s : string) : len (String c s) = 1 + len s.
Proof. unfold len. simpl String.length. lia. Qed.

Lemma len_append (a b : string) : len (a ++ b) = len a + len b.
Proof.
  unfold len. induction a as [|c a IH]; simpl String.length.
  - lia.
  - rewrite !Nat2Z.inj_succ in *. lia.
Qed.

Lemma len_take (n : nat) (s : string) : len (take n s) = Z.min (Z.of_nat n) (len s).
Proof.
  unfold len. revert s. induction n as [|n IH]; intros s.
  - simpl. lia.
  - destruct s as [|c s]; simpl take; simpl String.length.
    + lia.
    + specialize (IH s). lia.
Qed.

Lemma len_drop (n : nat) (s : string) :
  len (drop n s) = Z.max 0 (len s - Z.of_nat n).
Proof.
  unfold len. revert s. induction n as [|n IH]; intros s.
  - simpl. lia.
  - destruct s as [|c s]; simpl drop; simpl String.length.
    + lia.
    + specialize (IH s). lia.
Qed.

(** [s.substring(0, e)] has [min(max(floor e, 0), s.length)] characters. *)
Lemma len_substringTo (s : string) (e : Q) :
  len (substringTo s e) = Z.min (Z.max 0 (Qfloor e)) (len s).
Proof. unfold substringTo, index. rewrite len_take. lia. Qed.

Lemma len_substringFrom (s : string) (b : Q) :
  len (substringFrom s b) = Z.max 0 (len s - Z.max 0 (Qfloor b)).
Proof. unfold substringFrom, index. rewrite len_drop. lia. Qed.

Lemma Qfloor_half (z : Z) : Qfloor (inject_Z z / 2) = z / 2.
Proof. symmetry. apply (Zdiv_Qdiv z 2). Qed.

Lemma lt_half (a b : Z) : (inject_Z a < inject_Z b / 2)%Q -> 2 * a < b.
Proof.
  unfold Qlt, Qdiv, Qmult, Qinv, inject_Z. cbn [Qnum Qden].
  change (Z.pos (1 * 2)) with 2. lia.
Qed.

(** An integer is at most a rational exactly when it is at most its floor. *)
Lemma le_Qfloor (n : Z) (q : Q) : (inject_Z n <= q)%Q -> n <= Qfloor q.
Proof.
  intros H. rewrite <- (Qfloor_Z n). apply Qfloor_resp_le. exact H.
Qed.

Lemma Qlt_bool_true (x y : Q) : Qlt_bool x y = true -> (x < y)%Q.
Proof.
  unfold Qlt_bool. intros H. apply Qnot_le_lt. intros Hle.
  apply Qle_bool_iff in Hle. rewrite Hle in H. discriminate.
Qed.

Lemma Qlt_bool_false (x y : Q) : Qlt_bool x y = false -> (y <= x)%Q.
Proof.
  unfold Qlt_bool. intros H. apply Qle_bool_iff.
  destruct (Qle_bool y x); [reflexivity | discriminate].
Qed.

(** The character budget of [summarizeCode], rounded down, is within
    four characters per token. *)
Lemma code_budget_le (t : Z) : 0 <= t -> Qfloor (inject_Z t * (7 # 2)) <= 4 * t.
Proof.
  intros Ht. rewrite <- (Qfloor_Z (4 * t)). apply Qfloor_resp_le.
  unfold Qle, Qmult, inject_Z. cbn [Qnum Qden]. lia.
Qed.

Variable JSON_parse : string -> option JsonValue.

Lemma len_extractKeyContent content targetTokens :
  0 <= targetTokens ->
  len (extractKeyContent content targetTokens) <= 4 * targetTokens + 3.
Proof.
  intros Ht. unfold extractKeyContent.
  destruct (len content <=? targetTokens * 4) eqn:E.
  - apply Z.leb_le in E. lia.
  - rewrite len_append, len_substringTo, Qfloor_Z.
    change (len "...") with 3. lia.
Qed.

Lemma len_summarizeConversation content targetTokens :
  0 <= targetTokens ->
  len (summarizeConversation content targetTokens) <= 4 * targetTokens + 18.
Proof.
  intros Ht. unfold summarizeConversation.
  destruct (len content <=? targetTokens * 4) eqn:E.
  - apply Z.leb_le in E. lia.
  - set (result := join ". " _).
    rewrite len_append. change (len "[CONV SUMMARY] ") with 15.
    destruct (len result >? targetTokens * 4) eqn:Elong.
    + rewrite len_append, len_substringTo, Qfloor_Z.
      change (len "...") with 3. lia.
    + assert (len result <= targetTokens * 4) by (apply gtb_false; exact Elong).
      destruct (Qlt_bool _ _) eqn:Ehalf.
      * rewrite !len_append, len_substringTo, Qfloor_half.
        change (len "...") with 3.
        pose proof (len_nonneg content).
        assert (targetTokens * 4 / 2 = 2 * targetTokens)
          by (replace (targetTokens * 4) with (2 * targetTokens * 2) by lia;
              apply Z.div_mul; lia).
        apply Qlt_bool_true, lt_half in Ehalf.
        lia.
      * lia.
Qed.

Lemma len_summarizeCode content targetTokens :
  0 <= targetTokens ->
  len (summarizeCode content targetTokens) <= 4 * targetTokens + 18.
Proof.
  intros Ht. unfold summarizeCode.
  pose proof (code_budget_le Ht) as Hbudget.
  set (budget := (inject_Z targetTokens * (7 # 2))%Q) in *.
  set (result := join newline _).
  rewrite len_append. change (len "[CODE SUMMARY] ") with 15.
  assert (Hpayload :
    len (if Qlt_bool budget (inject_Z (len result))
         then substringTo result budget ++ "..." else result)
    <= Qfloor budget + 3).
  { destruct (Qlt_bool budget (inject_Z (len result))) eqn:E.
    - rewrite len_append, len_substringTo. change (len "...") with 3.
      assert (0 <= Qfloor budget).
      { rewrite <- (Qfloor_Z 0). apply Qfloor_resp_le.
        unfold budget, Qle, Qmult, inject_Z. cbn [Qnum Qden]. lia. }
      lia.
    - apply Qlt_bool_false in E. apply le_Qfloor in E. lia. }
  destruct (truthy _).
  - lia.
  - rewrite len_append, len_substringTo. change (len "...") with 3.
    assert (0 <= Qfloor budget).
    { rewrite <- (Qfloor_Z 0). apply Qfloor_resp_le.
      unfold budget, Qle, Qmult, inject_Z. cbn [Qnum Qden]. lia. }
    lia.
Qed.

(** The loop of [extractJsonSummary]: what it has collected, joined, fits
    in what was left of [maxChars]. *)
Lemma len_jsonSummaryEntries maxChars props :
  forall currentLength,
    jsonSummaryEntries maxChars props currentLength <> [] ->
    currentLength + len (join ", " (jsonSummaryEntries maxChars props currentLength))
    <= maxChars.
Proof.
  induction props as [|[key value] rest IH]; intros cl Hout.
  - simpl in Hout. congruence.
  - simpl jsonSummaryEntries in *.
    set (entry := key ++ _) in *.
    destruct (cl + len entry >? maxChars) eqn:E; [congruence|].
    assert (Hfit : cl + len entry <= maxChars) by (apply gtb_false; exact E).
    specialize (IH (cl + len entry + 2)).
    unfold join in *. simpl String.concat.
    destruct (jsonSummaryEntries maxChars rest (cl + len entry + 2)) as [|e' out].
    + lia.
    + rewrite len_append, !len_String.
      assert (e' :: out <> []) as Hne by discriminate.
      specialize (IH Hne). lia.
Qed.

Lemma len_extractJsonSummary obj maxChars :
  len (extractJsonSummary obj maxChars) <= Z.max 0 maxChars.
Proof.
  assert (Hloop : forall props,
             len (join ", " (jsonSummaryEntries maxChars props 0)) <= Z.max 0 maxChars).
  { intros props.
    destruct (jsonSummaryEntries maxChars props 0) as [|e out] eqn:E.
    - simpl. change (len "") with 0. lia.
    - pose proof (@len_jsonSummaryEntries maxChars props 0) as H.
      rewrite E in H. assert (e :: out <> []) as Hne by discriminate.
      specialize (H Hne). lia. }
  unfold extractJsonSummary.
  destruct obj; try apply Hloop;
    rewrite len_substringTo, Qfloor_Z; lia.
Qed.

Lemma len_summarizeToolOutput content targetTokens :
  0 <= targetTokens ->
  len (summarizeToolOutput JSON_parse content targetTokens) <= 3 * targetTokens + 17.
Proof.
  intros Ht. unfold summarizeToolOutput.
  destruct (if startsWith content "{" || startsWith content "["
            then JSON_parse content else None) as [obj|].
  - rewrite len_append. change (len "[TOOL OUTPUT] ") with 14.
    pose proof (len_extractJsonSummary obj (targetTokens * 3)). lia.
  - destruct (len content >? targetTokens * 3) eqn:E.
    + rewrite !len_append, len_substringTo, len_substringFrom, !Qfloor_Z.
      change (len "[TOOL OUTPUT] ") with 14. change (len "...") with 3.
      assert (len content > targetTokens * 3) by (apply gtb_true in E; lia).
      assert (0 <= targetTokens * 3 / 2) by (apply Z.div_pos; lia).
      assert (2 * (targetTokens * 3 / 2) <= targetTokens * 3)
        by (apply Z.mul_div_le; lia).
      lia.
    + rewrite len_append. change (len "[TOOL OUTPUT] ") with 14.
      assert (len content <= targetTokens * 3) by (apply gtb_false; exact E).
      lia.
Qed.

Lemma len_applySummaryCompression entry targetTokens :
  0 <= targetTokens ->
  len (s_summary (applySummaryCompression JSON_parse entry targetTokens))
  <= 4 * targetTokens + 18.
Proof.
  intros Ht. unfold applySummaryCompression. simpl s_summary.
  pose proof (len_summarizeCode (content entry) Ht).
  pose proof (len_summarizeToolOutput (content entry) Ht).
  pose proof (len_summarizeConversation (content entry) Ht).
  pose proof (len_extractKeyContent (content entry) Ht).
  destruct (type entry); lia.
Qed.

End SummaryLengths.

(* ------------------------------------------------------------------ *)
(** ** More on tiers *)

Lemma ltMaxAge_mono (a b : Z) (m : MaxAge) :
  a <= b -> ltMaxAge b m = true -> ltMaxAge a m = true.
Proof.
  intros Hab Hb. apply ltMaxAge_spec. apply ltMaxAge_spec in Hb.
  exact (Younger_mono _ Hab Hb).
Qed.

(** [tierAt], with its three tests named. *)
Lemma tierAt_tests (config : TemporalConfig) (now : Z) (entry : CacheEntry) :
  tierAt config now entry =
    if promoteOnAccess config
       && ltMaxAge (now - lastAccessedAt entry) (maxAge (hot (tiers config)))
    then Hot
    else if ltMaxAge (now - timestamp entry) (maxAge (hot (tiers config))) then Hot
    else if ltMaxAge (now - timestamp entry) (maxAge (warm (tiers config))) then Warm
    else Cold.
Proof.
  unfold tierAt, determineTier, bind, Date_now, fixedClock, ret.
  destruct (promoteOnAccess config && _); [reflexivity|].
  destruct (ltMaxAge _ (maxAge (hot (tiers config)))); [reflexivity|].
  destruct (ltMaxAge _ (maxAge (warm (tiers config)))); reflexivity.
Qed.

Ltac tier_cases :=
  repeat match goal with
         | H : ?b = true -> ?c = true |- _ =>
             destruct b, c; try (specialize (H eq_refl); discriminate); clear H
         end.

(** X1. [tierOrder] lists every tier once, so a pair of tiers is a
    demotion ([shouldCompress]) one way exactly when it is a promotion
    ([isPromotion]) the other way, two different tiers are always one or
    the other, and never both. *)
Theorem tier_moves_are_demotions_or_promotions (a b : TemporalTier) :
  0 <= tierIndex a <= 3
  /\ (tierIndex a = tierIndex b -> a = b)
  /\ shouldCompress a b = isPromotion b a
  /\ (a <> b <-> shouldCompress a b = true \/ isPromotion a b = true)
  /\ ~ (shouldCompress a b = true /\ isPromotion a b = true).
Proof.
  destruct a, b; vm_compute;
    repeat split; try intros [? ?]; intros;
    try congruence; try tauto;
    try (left; reflexivity); try (right; reflexivity);
    try (match goal with H : _ \/ _ |- _ => destruct H; congruence end).
Qed.

(** The later the time, the colder (or the same) the tier. *)
Lemma tierAt_mono (config : TemporalConfig) (entry : CacheEntry) (now1 now2 : Z) :
  now1 <= now2 ->
  tierIndex (tierAt config now1 entry) <= tierIndex (tierAt config now2 entry).
Proof.
  intros Hnow. rewrite !tierAt_tests.
  pose proof (@ltMaxAge_mono (now1 - lastAccessedAt entry) (now2 - lastAccessedAt entry)
                (maxAge (hot (tiers config))) ltac:(lia)) as Ha.
  pose proof (@ltMaxAge_mono (now1 - timestamp entry) (now2 - timestamp entry)
                (maxAge (hot (tiers config))) ltac:(lia)) as Hh.
  pose proof (@ltMaxAge_mono (now1 - timestamp entry) (now2 - timestamp entry)
                (maxAge (warm (tiers config))) ltac:(lia)) as Hw.
  destruct (promoteOnAccess config); simpl andb; tier_cases;
    vm_compute; congruence.
Qed.

(** X2. Without a new access an entry only ages toward cold: under a clock
    that never runs backwards, a later call of [determineTier] on the same
    entry never returns a tier nearer to hot than an earlier call did. *)
Theorem tier_ages_monotonically (config : TemporalConfig) (entry : CacheEntry)
        (clock : Clock) (i j : nat) :
  MonotoneClock clock ->
  (i <= j)%nat ->
  tierIndex (fst (determineTier config entry clock i))
  <= tierIndex (fst (determineTier config entry clock j)).
Proof.
  intros Hmono Hij. rewrite !determineTier_run. simpl fst.
  apply tierAt_mono. apply Hmono. exact Hij.
Qed.

Lemma tier_ages_monotonically_witness :
  tierIndex (fst (determineTier (demoConfig Hybrid) (sampleEntry 400 Hot 1000 1000 None)
                                tickingClock 1%nat))
  <= tierIndex (fst (determineTier (demoConfig Hybrid)
                                   (sampleEntry 400 Hot 1000 1000 None)
                                   tickingClock 5%nat)).
Proof.
  apply tier_ages_monotonically.
  - intros i j Hij. unfold tickingClock. lia.
  - lia.
Defined.

(** X3. Of two entries created at the same time, the one accessed later is
    never in a colder tier, and it can only differ by being hot through
    [promoteOnAccess]. *)
Theorem later_access_is_never_colder (config : TemporalConfig) (now : Z)
        (e1 e2 : CacheEntry) :
  timestamp e1 = timestamp e2 ->
  lastAccessedAt e1 <= lastAccessedAt e2 ->
  tierIndex (tierAt config now e2) <= tierIndex (tierAt config now e1)
  /\ (tierAt config now e2 <> tierAt config now e1 ->
      tierAt config now e2 = Hot /\ promoteOnAccess config = true).
Proof.
  intros Hcreated Haccess. rewrite !tierAt_tests, Hcreated.
  pose proof (@ltMaxAge_mono (now - lastAccessedAt e2) (now - lastAccessedAt e1)
                (maxAge (hot (tiers config))) ltac:(lia)) as Ha.
  destruct (promoteOnAccess config); simpl andb; tier_cases;
    destruct (ltMaxAge (now - timestamp e2) (maxAge (hot (tiers config))));
    destruct (ltMaxAge (now - timestamp e2) (maxAge (warm (tiers config))));
    (split; [vm_compute; congruence | intros Hne; try congruence; auto]).
Qed.

Lemma later_access_is_never_colder_witness :
  tierIndex (tierAt (demoConfig Hybrid) 1000 (sampleEntry 400 Cold 0 990 None))
  <= tierIndex (tierAt (demoConfig Hybrid) 1000 (sampleEntry 400 Cold 0 0 None))
  /\ (tierAt (demoConfig Hybrid) 1000 (sampleEntry 400 Cold 0 990 None)
      <> tierAt (demoConfig Hybrid) 1000 (sampleEntry 400 Cold 0 0 None) ->
      tierAt (demoConfig Hybrid) 1000 (sampleEntry 400 Cold 0 990 None) = Hot
      /\ promoteOnAccess (demoConfig Hybrid) = true).
Proof.
  apply later_access_is_never_colder.
  - reflexivity.
  - simpl. lia.
Defined.

(** X4. With a decay rate that is not negative, [calculateDecay] is 0 for
    the hot tier and does not decrease from one tier of [tierOrder] to the
    next. *)
Theorem decay_grows_with_tier (config : TemporalConfig) (a b : TemporalTier) :
  (0 <= decayRate config)%Q ->
  tierIndex a <= tierIndex b ->
  (calculateDecay config Hot == 0)%Q
  /\ (calculateDecay config a <= calculateDecay config b)%Q.
Proof.
  intros Hrate Horder. split; [reflexivity|].
  destruct (decayRate config) as [p q] eqn:Erate.
  assert (Hp : 0 <= p).
  { unfold Qle in Hrate. simpl in Hrate. lia. }
  destruct a, b; unfold calculateDecay; rewrite ?Erate;
    try (exfalso; vm_compute in Horder; congruence);
    unfold Qle, Qmult; cbn [Qnum Qden]; rewrite ?Pos.mul_1_r; nia.
Qed.

Lemma decay_grows_with_tier_witness :
  (calculateDecay (demoConfig Hybrid) Hot == 0)%Q
  /\ (calculateDecay (demoConfig Hybrid) Warm
      <= calculateDecay (demoConfig Hybrid) Archived)%Q.
Proof.
  apply decay_grows_with_tier.
  - vm_compute. discriminate.
  - vm_compute. discriminate.
Defined.

(* ------------------------------------------------------------------ *)
(** ** Accounting of a pass *)

Lemma sumPairs_difference (g : CacheEntry -> Z) (before after : list CacheEntry) :
  List.length before = List.length after ->
  sumPairs (fun e e' => g e - g e') before after
  = fold_right (fun e acc => g e + acc) 0 before
    - fold_right (fun e acc => g e + acc) 0 after.
Proof.
  revert after. induction before as [|e before IH]; intros [|e' after] Hlen;
    simpl in *; try discriminate; try lia.
  injection Hlen as Hlen. rewrite (IH after Hlen). lia.
Qed.

Lemma movesWhere_bounds (p : TemporalTier -> TemporalTier -> bool)
      (before after : list CacheEntry) :
  0 <= movesWhere p before after <= Z.of_nat (List.length before).
Proof.
  unfold movesWhere. revert after.
  induction before as [|e before IH]; intros [|e' after]; simpl sumPairs;
    simpl List.length; try lia.
  specialize (IH after). destruct (p (tier e) (tier e')); lia.
Qed.

Lemma trackTransition_tokensSaved current target result :
  tokensSaved (trackTransition current target result) = tokensSaved result.
Proof.
  unfold trackTransition.
  repeat match goal with |- context [if ?c then _ else _] => destruct c end;
    reflexivity.
Qed.

Lemma trackTransition_hotToWarm current target result :
  hotToWarm (trackTransition current target result)
  = hotToWarm result + (if isHotToWarm current target then 1 else 0).
Proof.
  destruct current, target;
    unfold trackTransition, isPromotion, isHotToWarm; simpl; lia.
Qed.

Lemma trackTransition_warmToCold current target result :
  warmToCold (trackTransition current target result)
  = warmToCold result + (if isWarmToCold current target then 1 else 0).
Proof.
  destruct current, target;
    unfold trackTransition, isPromotion, isWarmToCold; simpl; lia.
Qed.

Lemma trackTransition_promoted current target result :
  promoted (trackTransition current target result)
  = promoted result + (if isPromotion current target then 1 else 0).
Proof.
  destruct current, target; unfold trackTransition, isPromotion; simpl; lia.
Qed.

Section Accounting.

Variable JSON_parse : string -> option JsonValue.
Variable config : TemporalConfig.

Let step := transitionEntry JSON_parse config.
Let loop := transitionLoop JSON_parse config.

(** The cases of one iteration: skipped; moved with a new record; moved
    after [compressEntry] returned nothing; moved without compression. *)
Ltac step_cases :=
  unfold step; rewrite transitionEntry_run; cbv zeta;
  let E := fresh "Eskip" in
  let C := fresh "Ecompress" in
  let R := fresh "Eratio" in
  destruct (tier_eqb _ _) eqn:E;
  [ | destruct (shouldCompress _ _) eqn:C;
      [ rewrite compressEntry_run;
        destruct (tier_eqb _ Hot || Qle_bool 1 _) eqn:R; cbv zeta | ] ].

Lemma step_fields result entry clock k :
  let entry' := snd (fst (step result entry clock k)) in
  id entry' = id entry /\ content entry' = content entry
  /\ type entry' = type entry /\ tokens entry' = tokens entry
  /\ timestamp entry' = timestamp entry
  /\ lastAccessedAt entry' = lastAccessedAt entry.
Proof. cbv zeta. step_cases; simpl; repeat split; reflexivity. Qed.

Lemma step_tokensSaved result entry clock k :
  tokensSaved (fst (fst (step result entry clock k)))
  = tokensSaved result
    + (effectiveTokens entry - effectiveTokens (snd (fst (step result entry clock k)))).
Proof.
  step_cases; simpl fst; simpl snd;
    rewrite ?trackTransition_tokensSaved; unfold effectiveTokens; simpl; lia.
Qed.

(** A counter that [trackTransition] raises by one exactly on the moves
    that satisfy [p] is raised by one iteration exactly when the tiers of
    the entry before and after satisfy [p]. *)
Lemma step_counter (f : TierTransitionResult -> Z)
      (p : TemporalTier -> TemporalTier -> bool) :
  (forall current target result,
      f (trackTransition current target result)
      = f result + (if p current target then 1 else 0)) ->
  (forall d result, f (addTokensSaved d result) = f result) ->
  (forall t, p t t = false) ->
  forall result entry clock k,
    f (fst (fst (step result entry clock k)))
    = f result
      + (if p (tier entry) (tier (snd (fst (step result entry clock k))))
         then 1 else 0).
Proof.
  intros Htrack Hsaved Hsame result entry clock k.
  step_cases; simpl fst; simpl snd; simpl tier.
  - rewrite Hsame. lia.
  - rewrite Htrack. reflexivity.
  - rewrite Htrack, Hsaved. reflexivity.
  - rewrite Htrack. reflexivity.
Qed.


(** What an iteration does to [compressed]: it writes a record exactly on
    a demotion to a tier whose ratio is below 1, and the record holds the
    entry's token count; otherwise the field is left alone. *)
Lemma step_compressed result entry clock k :
  let target := tierAt config (clock k) entry in
  let entry' := snd (fst (step result entry clock k)) in
  if shouldCompress (tier entry) target
     && negb (Qle_bool 1 (compressionRatioFor config target))
  then exists c,
      compressed entry' = Some c
      /\ originalTokens c = tokens entry
      /\ compressedTokens c
         = c_tokens (applyCompression JSON_parse entry
                       (targetTokensFor config entry target)
                       (compressionStrategy config))
  else compressed entry' = compressed entry.
Proof.
  cbv zeta.
  destruct (tier_eqb (tierAt config (clock k) entry) (tier entry)) eqn:Esame.
  - unfold step. rewrite transitionEntry_run. cbv zeta. rewrite Esame.
    apply tier_eqb_eq in Esame. rewrite Esame.
    replace (shouldCompress (tier entry) (tier entry)) with false
      by (destruct (tier entry); reflexivity).
    reflexivity.
  - unfold step. rewrite transitionEntry_run. cbv zeta. rewrite Esame.
    destruct (shouldCompress (tier entry) (tierAt config (clock k) entry))
      eqn:Ecompress; [|reflexivity].
    rewrite compressEntry_run.
    destruct (tier_eqb (tierAt config (clock k) entry) Hot) eqn:Ehot.
    + apply tier_eqb_eq in Ehot.
      rewrite Ehot, shouldCompress_to_hot in Ecompress. discriminate.
    + simpl orb.
      destruct (Qle_bool 1 (compressionRatioFor config (tierAt config (clock k) entry)));
        simpl.
      * reflexivity.
      * eexists. split; [reflexivity|]. split; reflexivity.
Qed.

Lemma loop_length entries :
  forall result clock k,
    List.length (passEntries (loop result entries clock k)) = List.length entries.
Proof.
  induction entries as [|entry rest IH]; intros result clock k.
  - reflexivity.
  - unfold loop. rewrite loop_cons. cbv zeta. unfold passEntries at 1. simpl.
    f_equal. apply IH.
Qed.

(** A counter whose change in one iteration is [d before after] changes
    over the loop by the sum of [d] over the entries. *)
Lemma loop_accumulates (f : TierTransitionResult -> Z)
      (d : CacheEntry -> CacheEntry -> Z) :
  (forall result entry clock k,
      f (fst (fst (step result entry clock k)))
      = f result + d entry (snd (fst (step result entry clock k)))) ->
  forall entries result clock k,
    f (passResult (loop result entries clock k))
    = f result + sumPairs d entries (passEntries (loop result entries clock k)).
Proof.
  intros Hstep entries.
  induction entries as [|entry rest IH]; intros result clock k.
  - unfold loop, passResult. simpl. lia.
  - unfold loop. rewrite loop_cons. cbv zeta.
    unfold passResult at 1, passEntries at 1. simpl fst. simpl snd.
    simpl sumPairs. fold loop. fold step.
    fold (passResult (loop (fst (fst (step result entry clock k))) rest clock
                           (snd (step result entry clock k)))).
    rewrite IH, Hstep. lia.
Qed.


End Accounting.

Lemma Forall2_Forall_right {A B} (P : A -> Prop) (Q : B -> Prop)
      (l : list A) (l' : list B) :
  Forall2 (fun a b => P a -> Q b) l l' -> Forall P l -> Forall Q l'.
Proof.
  induction 1 as [|a b l l' Hab _ IH]; intros Hall.
  - constructor.
  - inversion Hall; subst. constructor; auto.
Qed.

Lemma Forall2_ignore_left {A B} (Q : B -> Prop) (l : list A) (l' : list B) :
  Forall2 (fun _ b => Q b) l l' -> Forall Q l'.
Proof. induction 1; constructor; assumption. Qed.

Lemma Forall2_map_eq {A B C} (f : A -> C) (g : B -> C) (l : list A) (l' : list B) :
  Forall2 (fun a b => g b = f a) l l' -> map g l' = map f l.
Proof.
  induction 1 as [|a b l l' Hab _ IH]; simpl; [reflexivity|].
  now rewrite Hab, IH.
Qed.

Lemma sumPairs_ext (P : CacheEntry -> Prop) (d1 d2 : CacheEntry -> CacheEntry -> Z)
      (before after : list CacheEntry) :
  (forall e e', P e' -> d1 e e' = d2 e e') ->
  Forall P after ->
  sumPairs d1 before after = sumPairs d2 before after.
Proof.
  intros Hext. revert after.
  induction before as [|e before IH]; intros [|e' after] Hall; simpl; try reflexivity.
  inversion Hall; subst. rewrite Hext by assumption. now rewrite IH.
Qed.

Lemma sumPairs_plus (d1 d2 : CacheEntry -> CacheEntry -> Z)
      (before after : list CacheEntry) :
  sumPairs (fun e e' => d1 e e' + d2 e e') before after
  = sumPairs d1 before after + sumPairs d2 before after.
Proof.
  revert after.
  induction before as [|e before IH]; intros [|e' after]; simpl; try reflexivity.
  rewrite IH. lia.
Qed.

(** A move into a tier other than archived is counted exactly when it is
    one of hot to warm, warm to cold, or a promotion. *)
Lemma isCountedMove_split (a b : TemporalTier) :
  b <> Archived ->
  (if isCountedMove a b then 1 else 0)
  = (if isHotToWarm a b then 1 else 0) + (if isWarmToCold a b then 1 else 0)
    + (if isPromotion a b then 1 else 0).
Proof. destruct a, b; intros H; try congruence; reflexivity. Qed.

(** The three parts of a pass, in terms of its loop. *)
Lemma pass_entries JSON_parse config entries clock k :
  passEntries (processTransitions JSON_parse config entries clock k)
  = passEntries (transitionLoop JSON_parse config zeroResult entries clock (S k)).
Proof. rewrite processTransitions_run. reflexivity. Qed.

Lemma pass_result JSON_parse config entries clock k :
  passResult (processTransitions JSON_parse config entries clock k)
  = setDuration
      (clock (passTicks (transitionLoop JSON_parse config zeroResult entries clock (S k)))
       - clock k)
      (passResult (transitionLoop JSON_parse config zeroResult entries clock (S k))).
Proof. rewrite processTransitions_run. reflexivity. Qed.


(** X5. A pass neither adds, removes nor reorders entries, and it changes
    nothing of an entry but [tier] and [compressed]: id, content, type,
    tokens and both timestamps are as before. *)
Theorem pass_changes_only_tier_and_compressed
        (JSON_parse : string -> option JsonValue) (config : TemporalConfig)
        (entries : list CacheEntry) (clock : Clock) (k : nat) :
  let pass := processTransitions JSON_parse config entries clock k in
  List.length (passEntries pass) = List.length entries
  /\ Forall2 (fun e e' =>
                id e' = id e /\ content e' = content e /\ type e' = type e
                /\ tokens e' = tokens e /\ timestamp e' = timestamp e
                /\ lastAccessedAt e' = lastAccessedAt e)
             entries (passEntries pass).
Proof.
  cbv zeta. rewrite pass_entries. split.
  - apply loop_length.
  - apply (loop_Forall2 JSON_parse config clock
             (fun e e' =>
                id e' = id e /\ content e' = content e /\ type e' = type e
                /\ tokens e' = tokens e /\ timestamp e' = timestamp e
                /\ lastAccessedAt e' = lastAccessedAt e)).
    intros r e k0. apply step_fields.
Qed.

(** X6. [tokensSaved] is exactly what the pass took off the effective token
    count: the effective tokens after the pass plus [tokensSaved] are the
    effective tokens before it. *)
Theorem tokensSaved_accounts_for_effective_tokens
        (JSON_parse : string -> option JsonValue) (config : TemporalConfig)
        (entries : list CacheEntry) (clock : Clock) (k : nat) :
  let pass := processTransitions JSON_parse config entries clock k in
  totalEffectiveTokens (passEntries pass) + tokensSaved (passResult pass)
  = totalEffectiveTokens entries.
Proof.
  cbv zeta. rewrite pass_entries, pass_result.
  change (tokensSaved (setDuration ?d ?r)) with (tokensSaved r).
  rewrite (loop_accumulates JSON_parse config tokensSaved
             (fun e e' => effectiveTokens e - effectiveTokens e')
             (step_tokensSaved JSON_parse config)).
  rewrite sumPairs_difference by (symmetry; apply loop_length).
  unfold totalEffectiveTokens. simpl tokensSaved. lia.
Qed.

(** [promoted] counts the entries that went to a tier nearer to hot. *)
Lemma pass_promoted JSON_parse config entries clock k :
  promoted (passResult (processTransitions JSON_parse config entries clock k))
  = movesWhere isPromotion entries
      (passEntries (processTransitions JSON_parse config entries clock k)).
Proof.
  rewrite pass_entries, pass_result.
  change (promoted (setDuration ?d ?r)) with (promoted r).
  unfold movesWhere.
  rewrite (loop_accumulates JSON_parse config promoted
             (fun e e' => if isPromotion (tier e) (tier e') then 1 else 0)).
  - reflexivity.
  - apply step_counter.
    + apply trackTransition_promoted.
    + reflexivity.
    + intros t. now destruct t.
Qed.

(** X7. The counters of a pass count moves: [hotToWarm] the entries that
    went from hot to warm, [warmToCold] those that went from warm to cold,
    [promoted] those that went to a tier nearer to hot; together with
    [coldToArchived] they count every entry whose tier changed except
    those that went from hot to cold, so their sum is at most the number
    of entries. *)
Theorem counters_count_moves
        (JSON_parse : string -> option JsonValue) (config : TemporalConfig)
        (entries : list CacheEntry) (clock : Clock) (k : nat) :
  let pass := processTransitions JSON_parse config entries clock k in
  let result := passResult pass in
  let after := passEntries pass in
  hotToWarm result = movesWhere isHotToWarm entries after
  /\ warmToCold result = movesWhere isWarmToCold entries after
  /\ promoted result = movesWhere isPromotion entries after
  /\ transitionsCounted result = movesWhere isCountedMove entries after
  /\ 0 <= transitionsCounted result <= Z.of_nat (List.length entries).
Proof.
  cbv zeta.
  assert (Hnone : coldToArchived
                    (passResult (processTransitions JSON_parse config entries clock k))
                  = 0).
  { rewrite pass_result.
    change (coldToArchived (setDuration ?d ?r)) with (coldToArchived r).
    apply (loop_counter JSON_parse config coldToArchived).
    intros r e c k0. apply step_coldToArchived. }
  assert (Hafter : Forall (fun e' => tier e' <> Archived)
                     (passEntries
                        (processTransitions JSON_parse config entries clock k))).
  { rewrite pass_entries.
    apply (@Forall2_ignore_left _ _ (fun e' => tier e' <> Archived) entries).
    apply (loop_Forall2 JSON_parse config clock (fun _ e' => tier e' <> Archived)).
    intros r e k0. rewrite step_tier. apply tierAt_not_archived. }
  assert (Hhw : hotToWarm
                  (passResult (processTransitions JSON_parse config entries clock k))
                = movesWhere isHotToWarm entries
                    (passEntries (processTransitions JSON_parse config entries clock k))).
  { rewrite pass_entries, pass_result.
    change (hotToWarm (setDuration ?d ?r)) with (hotToWarm r).
    unfold movesWhere.
    rewrite (loop_accumulates JSON_parse config hotToWarm
               (fun e e' => if isHotToWarm (tier e) (tier e') then 1 else 0)).
    - reflexivity.
    - apply step_counter.
      + apply trackTransition_hotToWarm.
      + reflexivity.
      + intros t. now destruct t. }
  assert (Hwc : warmToCold
                  (passResult (processTransitions JSON_parse config entries clock k))
                = movesWhere isWarmToCold entries
                    (passEntries (processTransitions JSON_parse config entries clock k))).
  { rewrite pass_entries, pass_result.
    change (warmToCold (setDuration ?d ?r)) with (warmToCold r).
    unfold movesWhere.
    rewrite (loop_accumulates JSON_parse config warmToCold
               (fun e e' => if isWarmToCold (tier e) (tier e') then 1 else 0)).
    - reflexivity.
    - apply step_counter.
      + apply trackTransition_warmToCold.
      + reflexivity.
      + intros t. now destruct t. }
  pose proof (pass_promoted JSON_parse config entries clock k) as Hpr.
  assert (Hsum : transitionsCounted
                   (passResult (processTransitions JSON_parse config entries clock k))
                 = movesWhere isCountedMove entries
                     (passEntries (processTransitions JSON_parse config entries clock k))).
  { unfold transitionsCounted. rewrite Hhw, Hwc, Hpr, Hnone.
    unfold movesWhere.
    rewrite (@sumPairs_ext (fun e' => tier e' <> Archived)
               (fun e e' => if isCountedMove (tier e) (tier e') then 1 else 0)
               (fun e e' =>
                  ((if isHotToWarm (tier e) (tier e') then 1 else 0)
                   + (if isWarmToCold (tier e) (tier e') then 1 else 0))
                  + (if isPromotion (tier e) (tier e') then 1 else 0))
               entries _
               (fun e e' H => isCountedMove_split (tier e) H) Hafter).
    rewrite !sumPairs_plus. lia. }
  repeat split; try assumption; rewrite Hsum; apply movesWhere_bounds.
Qed.



(** X9. A pass writes [compressed] exactly on demotions into a tier whose
    ratio is below 1: such an entry ends with a record that holds its
    token count and the tokens [applyCompression] returned for the target
    tier; every other entry (kept, promoted, or demoted into a tier whose
    ratio is 1 or more) keeps the [compressed] field it had. *)
Theorem pass_writes_compressed_on_demotion
        (JSON_parse : string -> option JsonValue) (config : TemporalConfig)
        (entries : list CacheEntry) (clock : Clock) (k : nat) :
  Forall2
    (fun e e' =>
       if shouldCompress (tier e) (tier e')
          && negb (Qle_bool 1 (compressionRatioFor config (tier e')))
       then exists c,
           compressed e' = Some c
           /\ originalTokens c = tokens e'
           /\ compressedTokens c
              = c_tokens (applyCompression JSON_parse e
                            (targetTokensFor config e (tier e'))
                            (compressionStrategy config))
       else compressed e' = compressed e)
    entries
    (passEntries (processTransitions JSON_parse config entries clock k)).
Proof.
  rewrite pass_entries.
  apply (loop_Forall2 JSON_parse config clock
           (fun e e' =>
              if shouldCompress (tier e) (tier e')
                 && negb (Qle_bool 1 (compressionRatioFor config (tier e')))
              then exists c,
                  compressed e' = Some c
                  /\ originalTokens c = tokens e'
                  /\ compressedTokens c
                     = c_tokens (applyCompression JSON_parse e
                                   (targetTokensFor config e (tier e'))
                                   (compressionStrategy config))
              else compressed e' = compressed e)).
  intros r e k0.
  pose proof (step_compressed JSON_parse config r e clock k0) as Hstep.
  cbv zeta in Hstep.
  pose proof (step_fields JSON_parse config r e clock k0) as Hfields.
  cbv zeta in Hfields. destruct Hfields as [_ [_ [_ [Htokens _]]]].
  rewrite step_tier, Htokens. exact Hstep.
Qed.

(** X10. A pass keeps the invariant that a compressed record's
    [originalTokens] is its entry's [tokens]: if it holds for every entry
    before the pass, it holds for every entry after it. *)
Theorem pass_keeps_original_tokens
        (JSON_parse : string -> option JsonValue) (config : TemporalConfig)
        (entries : list CacheEntry) (clock : Clock) (k : nat) :
  Forall RecordsOriginalTokens entries ->
  Forall RecordsOriginalTokens
         (passEntries (processTransitions JSON_parse config entries clock k)).
Proof.
  rewrite pass_entries.
  apply Forall2_Forall_right.
  apply (loop_Forall2 JSON_parse config clock
           (fun e e' => RecordsOriginalTokens e -> RecordsOriginalTokens e')).
  intros r e k0 Hbefore.
  pose proof (step_compressed JSON_parse config r e clock k0) as Hstep.
  cbv zeta in Hstep.
  pose proof (step_fields JSON_parse config r e clock k0) as Hfields.
  cbv zeta in Hfields. destruct Hfields as [_ [_ [_ [Htokens _]]]].
  unfold RecordsOriginalTokens in *.
  destruct (shouldCompress _ _ && _).
  - destruct Hstep as [c [Hc [Horig _]]]. rewrite Hc, Htokens. exact Horig.
  - rewrite Hstep, Htokens. exact Hbefore.
Qed.

Lemma pass_keeps_original_tokens_witness :
  Forall RecordsOriginalTokens
         (passEntries
            (processTransitions rejectJson (demoConfig Embedding)
               [sampleEntry 400 Cold 0 1000 (Some sampleCompressed);
                sampleEntry 400 Hot 0 0 None]
               (fixedClock 1000) 0%nat)).
Proof.
  apply pass_keeps_original_tokens.
  repeat constructor.
Defined.

(** X11. Under a clock that stands still at [now], a pass leaves every
    entry in the tier [determineTier] computes for it at [now]. *)
Theorem pass_assigns_target_tiers
        (JSON_parse : string -> option JsonValue) (config : TemporalConfig)
        (entries : list CacheEntry) (now : Z) (k : nat) :
  map tier (passEntries
              (processTransitions JSON_parse config entries (fixedClock now) k))
  = map (fun e => fst (determineTier config e (fixedClock now) k)) entries.
Proof.
  rewrite pass_entries. apply Forall2_map_eq.
  apply (loop_Forall2 JSON_parse config (fixedClock now)
           (fun e e' => tier e' = fst (determineTier config e (fixedClock now) k))).
  intros r e k0. rewrite step_tier, determineTier_run. reflexivity.
Qed.

(** X12. [needsTransition] tells what one iteration of a pass does, at the
    same reading of the clock: it is true exactly when the iteration
    changes the entry's tier, and when it is false the iteration leaves
    the entry and the result record as they were. *)
Theorem needsTransition_decides_iteration
        (JSON_parse : string -> option JsonValue) (config : TemporalConfig)
        (result : TierTransitionResult) (entry : CacheEntry)
        (clock : Clock) (k : nat) :
  let after := transitionEntry JSON_parse config result entry clock k in
  fst (needsTransition config entry clock k)
  = negb (tier_eqb (tier (snd (fst after))) (tier entry))
  /\ (fst (needsTransition config entry clock k) = false ->
      after = (result, entry, S k)).
Proof.
  cbv zeta. unfold needsTransition, bind. rewrite determineTier_run.
  unfold ret. simpl fst. rewrite step_tier. split; [reflexivity|].
  intros Hsame. apply step_settled.
  destruct (tier_eqb (tierAt config (clock k) entry) (tier entry)) eqn:E;
    [|discriminate].
  apply tier_eqb_eq in E. now symmetry.
Qed.

(* ------------------------------------------------------------------ *)
(** ** More on the compressor *)

Lemma Qceiling_nonneg (q : Q) : (0 <= q)%Q -> 0 <= Qceiling q.
Proof.
  intros H. change 0 with (Qceiling 0). apply Qceiling_resp_le. exact H.
Qed.

Lemma estimate_nonneg (s : string) : 0 <= Qceiling (inject_Z (JsString.len s) / 4).
Proof.
  apply Qceiling_nonneg.
  pose proof (len_nonneg s) as H.
  unfold Qle, Qdiv, Qmult, Qinv, inject_Z. cbn [Qnum Qden]. lia.
Qed.

Lemma applySummaryCompression_nonneg JSON_parse entry targetTokens :
  0 <= targetTokens ->
  0 <= s_tokens (applySummaryCompression JSON_parse entry targetTokens).
Proof.
  intros Ht. unfold applySummaryCompression. simpl s_tokens.
  apply Z.min_glb; [exact Ht | apply estimate_nonneg].
Qed.

(** The summary's share of a target, seven tenths rounded up. *)
Lemma hybrid_share_bounds (t : Z) :
  0 <= t ->
  0 <= Qceiling (inject_Z t * (7 # 10))
  /\ (17 <= t -> Qceiling (inject_Z t * (7 # 10)) + 5 <= t).
Proof.
  intros Ht. split.
  - apply Qceiling_nonneg. unfold Qle, Qmult, inject_Z. cbn [Qnum Qden]. lia.
  - intros Hbig.
    assert (Qceiling (inject_Z t * (7 # 10)) <= t - 5); [|lia].
    rewrite <- (Qceiling_Z (t - 5)). apply Qceiling_resp_le.
    unfold Qle, Qmult, inject_Z. cbn [Qnum Qden].
    change (Z.pos (1 * 10)) with 10. lia.
Qed.

(** X13. [compressEntry] returns nothing, without reading the clock,
    exactly when the target is hot or the tier's ratio is 1 or more.
    Otherwise it reads the clock once and returns a record whose
    [originalTokens] is the entry's [tokens], whose [compressedAt] is the
    reading, whose [compressedTokens] is what [applyCompression] returned
    for the target, and whose [summary] is absent exactly under the
    embedding strategy. *)
Theorem compressEntry_record (JSON_parse : string -> option JsonValue)
        (config : TemporalConfig) (entry : CacheEntry) (targetTier : TemporalTier)
        (clock : Clock) (k : nat) :
  match compressEntry JSON_parse config entry targetTier clock k with
  | (None, k') =>
      (targetTier = Hot \/ (1 <= compressionRatioFor config targetTier)%Q)
      /\ k' = k
  | (Some c, k') =>
      targetTier <> Hot
      /\ (compressionRatioFor config targetTier < 1)%Q
      /\ k' = S k
      /\ originalTokens c = tokens entry
      /\ compressedAt c = clock k
      /\ compressedTokens c
         = c_tokens (applyCompression JSON_parse entry
                       (targetTokensFor config entry targetTier)
                       (compressionStrategy config))
      /\ (summary c = None <-> compressionStrategy config = Embedding)
  end.
Proof.
  rewrite compressEntry_run.
  destruct (tier_eqb targetTier Hot) eqn:Ehot; simpl orb.
  - split; [|reflexivity]. left. now apply tier_eqb_eq.
  - destruct (Qle_bool 1 (compressionRatioFor config targetTier)) eqn:Eratio.
    + split; [|reflexivity]. right. now apply Qle_bool_iff.
    + cbv zeta. cbn [originalTokens compressedAt compressedTokens summary].
      split; [intros ->; discriminate|].
      split; [now apply Qle_bool_false|].
      split; [reflexivity|]. split; [reflexivity|]. split; [reflexivity|].
      split; [reflexivity|].
      destruct (compressionStrategy config); simpl; split; congruence.
Qed.

(** X14. The text of a record's summary stays within the character budget
    of its target: at most [4 * target + 18] characters under the summary
    strategy, and under the hybrid strategy at most
    [4 * ceil(0.7 * target) + 18] characters after the marker
    [[EMBEDDING:id] ]; the embedding strategy stores no text. *)
Theorem compressed_summary_within_budget (JSON_parse : string -> option JsonValue)
        (config : TemporalConfig) (entry : CacheEntry) (targetTier : TemporalTier)
        (clock : Clock) (k : nat) (c : CompressedEntry) :
  0 <= targetTokensFor config entry targetTier ->
  fst (compressEntry JSON_parse config entry targetTier clock k) = Some c ->
  match compressionStrategy config, summary c with
  | Summary, Some s =>
      JsString.len s <= 4 * targetTokensFor config entry targetTier + 18
  | Hybrid, Some s =>
      JsString.len s
      <= 13 + JsString.len (id entry)
         + (4 * Qceiling (inject_Z (targetTokensFor config entry targetTier) * (7 # 10))
            + 18)
  | Embedding, None => True
  | _, _ => False
  end.
Proof.
  intros Htarget. rewrite compressEntry_run.
  destruct (tier_eqb targetTier Hot || Qle_bool 1 (compressionRatioFor config targetTier));
    simpl fst; intros H; [discriminate|].
  injection H as <-. cbn [summary].
  destruct (compressionStrategy config);
    unfold applyCompression, withSummary, applyHybridCompression,
           applyEmbeddingCompression;
    cbn [c_summary s_summary].
  - apply len_applySummaryCompression. exact Htarget.
  - exact I.
  - pose proof (hybrid_share_bounds Htarget) as [Hshare _].
    pose proof (@len_applySummaryCompression JSON_parse entry _ Hshare).
    rewrite !len_append.
    change (JsString.len "[EMBEDDING:") with 11.
    change (JsString.len "] ") with 2.
    lia.
Qed.

Lemma compressed_summary_within_budget_witness :
  match compressionStrategy (demoConfig Summary),
        summary (mkCompressedEntry Summary (Some "abcdefgh"%string) 2 (Some (2 # 400)) 400 150)
  with
  | Summary, Some s =>
      JsString.len s
      <= 4 * targetTokensFor (demoConfig Summary) (sampleEntry 400 Hot 0 0 None) Warm
         + 18
  | Hybrid, Some s =>
      JsString.len s
      <= 13 + JsString.len (id (sampleEntry 400 Hot 0 0 None))
         + (4 * Qceiling
                  (inject_Z (targetTokensFor (demoConfig Summary)
                               (sampleEntry 400 Hot 0 0 None) Warm) * (7 # 10))
            + 18)
  | Embedding, None => True
  | _, _ => False
  end.
Proof.
  apply (@compressed_summary_within_budget rejectJson (demoConfig Summary)
           (sampleEntry 400 Hot 0 0 None) Warm (fixedClock 150) 1%nat).
  - vm_compute. discriminate.
  - vm_compute. reflexivity.
Defined.

(** X15. When the tool output starts with a brace or a bracket and the
    host parses it, [summarizeToolOutput] is the marker followed by
    [extractJsonSummary] of the parsed value, which never has more than
    [maxChars = 3 * targetTokens] characters (none when that is
    negative). *)
Theorem json_summary_fits (JSON_parse : string -> option JsonValue)
        (content : string) (targetTokens : Z) (obj : JsonValue) :
  (JsString.startsWith content "{" || JsString.startsWith content "[") = true ->
  JSON_parse content = Some obj ->
  summarizeToolOutput JSON_parse content targetTokens
  = ("[TOOL OUTPUT] " ++ extractJsonSummary obj (targetTokens * 3))%string
  /\ JsString.len (extractJsonSummary obj (targetTokens * 3))
     <= Z.max 0 (targetTokens * 3).
Proof.
  intros Hstart Hparse. split.
  - unfold summarizeToolOutput. rewrite Hstart, Hparse. reflexivity.
  - apply len_extractJsonSummary.
Qed.

Lemma json_summary_fits_witness :
  summarizeToolOutput
    (fun _ => Some (JObject [("ok"%string, JBool true); ("rows"%string, JArray [])]))
    "{ }" 10
  = ("[TOOL OUTPUT] "
       ++ extractJsonSummary
            (JObject [("ok"%string, JBool true); ("rows"%string, JArray [])])
            (10 * 3))%string
  /\ JsString.len
       (extractJsonSummary
          (JObject [("ok"%string, JBool true); ("rows"%string, JArray [])])
          (10 * 3))
     <= Z.max 0 (10 * 3).
Proof.
  apply (@json_summary_fits
           (fun _ => Some (JObject [("ok"%string, JBool true);
                                    ("rows"%string, JArray [])]))
           "{ }" 10).
  - reflexivity.
  - reflexivity.
Defined.

(** X16. The loop of [extractJsonSummary] stops at the first key that does
    not fit and takes keys in order, so with a larger [maxChars] it lists
    the same keys and possibly more: the shorter list is a prefix of the
    longer one. *)
Theorem json_summary_grows_with_budget
        (small large : Z) (props : list (string * JsonValue)) (currentLength : Z) :
  small <= large ->
  exists n,
    jsonSummaryEntries small props currentLength
    = firstn n (jsonSummaryEntries large props currentLength).
Proof.
  intros Hle. revert currentLength.
  induction props as [|[key value] rest IH]; intros cl.
  - exists 0%nat. reflexivity.
  - simpl jsonSummaryEntries.
    set (entry := (key ++ _)%string).
    destruct (cl + JsString.len entry >? small) eqn:Es.
    + exists 0%nat. reflexivity.
    + apply gtb_false in Es.
      assert (El : (cl + JsString.len entry >? large) = false).
      { destruct (cl + JsString.len entry >? large) eqn:E; [|reflexivity].
        apply gtb_true in E. lia. }
      rewrite El.
      destruct (IH (cl + JsString.len entry + 2)) as [n Hn].
      exists (S n). simpl. now rewrite Hn.
Qed.

Lemma json_summary_grows_with_budget_witness :
  exists n,
    jsonSummaryEntries 5 [("ok"%string, JBool true); ("rows"%string, JArray [])] 0
    = firstn n
        (jsonSummaryEntries 30 [("ok"%string, JBool true); ("rows"%string, JArray [])] 0).
Proof.
  apply json_summary_grows_with_budget. lia.
Defined.

(** X17. Content of a message, a system prompt or another untyped entry
    that fits the budget of four characters per target token is kept as it
    is, without a marker, and is counted as [ceil(length / 4)] tokens. *)
Theorem short_content_is_kept_verbatim (JSON_parse : string -> option JsonValue)
        (entry : CacheEntry) (targetTokens : Z) :
  match type entry with
  | file_read | file_write | tool_result | bash_output => False
  | _ => True
  end ->
  JsString.len (content entry) <= targetTokens * 4 ->
  applySummaryCompression JSON_parse entry targetTokens
  = mkSummaryResult (content entry)
                    (Qceiling (inject_Z (JsString.len (content entry)) / 4)).
Proof.
  intros Htype Hfits.
  assert (Hle : (JsString.len (content entry) <=? targetTokens * 4) = true)
    by (apply Z.leb_le; exact Hfits).
  assert (Hest : Qceiling (inject_Z (JsString.len (content entry)) / 4) <= targetTokens).
  { rewrite <- (Qceiling_Z targetTokens). apply Qceiling_resp_le.
    unfold Qle, Qdiv, Qmult, Qinv, inject_Z. cbn [Qnum Qden].
    change (Z.pos (1 * 4)) with 4. lia. }
  unfold applySummaryCompression.
  destruct (type entry); try contradiction;
    unfold summarizeConversation, extractKeyContent; rewrite Hle;
    f_equal; apply Z.min_r; exact Hest.
Qed.

Lemma short_content_is_kept_verbatim_witness :
  applySummaryCompression rejectJson (sampleEntry 400 Hot 0 0 None) 100
  = mkSummaryResult (content (sampleEntry 400 Hot 0 0 None))
                    (Qceiling (inject_Z (JsString.len
                                           (content (sampleEntry 400 Hot 0 0 None))) / 4)).
Proof.
  apply short_content_is_kept_verbatim.
  - exact I.
  - vm_compute. discriminate.
Defined.

(** X18. Compression does not grow an entry that is large enough: when the
    target [ceil(tokens * ratio)] is 17 tokens or more, the record
    [compressEntry] returns has between 0 and the target many
    [compressedTokens], under every strategy, and the target is at most
    the entry's tokens. *)
Theorem compression_shrinks_large_entries (JSON_parse : string -> option JsonValue)
        (config : TemporalConfig) (entry : CacheEntry) (targetTier : TemporalTier)
        (clock : Clock) (k : nat) (c : CompressedEntry) :
  0 <= tokens entry ->
  17 <= targetTokensFor config entry targetTier ->
  fst (compressEntry JSON_parse config entry targetTier clock k) = Some c ->
  0 <= compressedTokens c <= targetTokensFor config entry targetTier
  /\ targetTokensFor config entry targetTier <= tokens entry.
Proof.
  intros Htokens Hbig. rewrite compressEntry_run.
  destruct (tier_eqb targetTier Hot) eqn:Ehot; simpl orb;
    [simpl; discriminate|].
  destruct (Qle_bool 1 (compressionRatioFor config targetTier)) eqn:Eratio;
    simpl fst; intros H; [discriminate|].
  injection H as <-. cbn [compressedTokens].
  split.
  - assert (Htarget : 0 <= targetTokensFor config entry targetTier) by lia.
    destruct (compressionStrategy config);
      unfold applyCompression, withSummary, applyHybridCompression,
             applyEmbeddingCompression;
      cbn [c_tokens s_tokens].
    + pose proof (applySummaryCompression_le JSON_parse entry
                    (targetTokensFor config entry targetTier)).
      pose proof (applySummaryCompression_nonneg JSON_parse entry Htarget).
      lia.
    + lia.
    + pose proof (hybrid_share_bounds Htarget) as [Hshare Hfit].
      specialize (Hfit Hbig).
      pose proof (applySummaryCompression_le JSON_parse entry
                    (Qceiling (inject_Z (targetTokensFor config entry targetTier)
                               * (7 # 10)))).
      pose proof (applySummaryCompression_nonneg JSON_parse entry Hshare).
      lia.
  - apply ceiling_share_le; [exact Htokens | now apply Qle_bool_false].
Qed.

Lemma compression_shrinks_large_entries_witness :
  0 <= compressedTokens
         (mkCompressedEntry Summary (Some "[EMBEDDING:e1] abcdefgh"%string) 7
                            (Some (7 # 400)) 400 150)
    <= targetTokensFor (demoConfig Hybrid) (sampleEntry 400 Hot 0 0 None) Warm
  /\ targetTokensFor (demoConfig Hybrid) (sampleEntry 400 Hot 0 0 None) Warm
     <= tokens (sampleEntry 400 Hot 0 0 None).
Proof.
  apply (@compression_shrinks_large_entries rejectJson (demoConfig Hybrid)
           (sampleEntry 400 Hot 0 0 None) Warm (fixedClock 150) 1%nat).
  - simpl. lia.
  - vm_compute. discriminate.
  - vm_compute. reflexivity.
Defined.

(* ------------------------------------------------------------------ *)
(** ** Passes one after another *)

Lemma sumPairs_zero (P : CacheEntry -> Prop) (d : CacheEntry -> CacheEntry -> Z)
      (before after : list CacheEntry) :
  Forall2 (fun e e' => P e -> d e e' = 0) before after ->
  Forall P before ->
  sumPairs d before after = 0.
Proof.
  induction 1 as [|e e' before after Hd _ IH]; intros Hall; simpl; [reflexivity|].
  inversion Hall; subst. rewrite Hd, IH by assumption. reflexivity.
Qed.



(** X19. Two passes in a row, the second not earlier than the first and no
    access in between (each under a clock standing still at its time): the
    second pass promotes nothing. *)
Theorem aging_pass_promotes_nothing (JSON_parse : string -> option JsonValue)
        (config : TemporalConfig) (entries : list CacheEntry)
        (now0 now1 : Z) (k : nat) :
  now0 <= now1 ->
  let first := processTransitions JSON_parse config entries (fixedClock now0) k in
  let second :=
    processTransitions JSON_parse config (passEntries first) (fixedClock now1)
                       (passTicks first) in
  promoted (passResult second) = 0.
Proof.
  intros Hnow. cbv zeta.
  assert (Hsettled : Forall (fun e => tier e = tierAt config now0 e)
                       (passEntries
                          (processTransitions JSON_parse config entries
                                              (fixedClock now0) k))).
  { rewrite pass_entries. apply loop_settles. }
  set (first := processTransitions JSON_parse config entries (fixedClock now0) k) in *.
  rewrite pass_promoted. unfold movesWhere.
  apply (@sumPairs_zero (fun e => tier e = tierAt config now0 e)); [|exact Hsettled].
  rewrite (pass_entries JSON_parse config (passEntries first)).
  apply (loop_Forall2 JSON_parse config (fixedClock now1)
           (fun e e' => tier e = tierAt config now0 e ->
                        (if isPromotion (tier e) (tier e') then 1 else 0) = 0)).
  intros r e k0 He. rewrite step_tier. unfold fixedClock.
  pose proof (tierAt_mono config e Hnow) as Hmono.
  rewrite <- He in Hmono. unfold tierIndex in Hmono. unfold isPromotion.
  destruct (indexOf tierOrder (tierAt config now1 e) <? indexOf tierOrder (tier e))
    eqn:E; [|reflexivity].
  apply Z.ltb_lt in E. lia.
Qed.

Lemma aging_pass_promotes_nothing_witness :
  promoted
    (passResult
       (processTransitions rejectJson (demoConfig Embedding)
          (passEntries
             (processTransitions rejectJson (demoConfig Embedding)
                [sampleEntry 400 Hot 0 0 None] (fixedClock 150) 0%nat))
          (fixedClock 400)
          (passTicks
             (processTransitions rejectJson (demoConfig Embedding)
                [sampleEntry 400 Hot 0 0 None] (fixedClock 150) 0%nat))))
  = 0.
Proof.
  apply (@aging_pass_promotes_nothing rejectJson (demoConfig Embedding)
           [sampleEntry 400 Hot 0 0 None] 150 400 0%nat).
  lia.
Defined.

(* ------------------------------------------------------------------ *)
(** ** The reading of the clock at which an entry is handled *)







